(** * User model of the auto-lease backend: credentials, tokens and the
      dealership application workflow

    Shallow embedding of [src/models/userModel.js].  The Mongoose document
    is a finite map from schema paths to values, [save] is an explicit
    state transformer over the document, the stored record, the clock and
    the random source, and the two regular expressions of the schema are
    run by a small backtracking matcher.  What Mongoose does on a save
    (validation, the timestamps of the schema option, the hooks, the
    write) is modelled as far as the methods of the file make use of it. *)

From Stdlib Require Import ZArith QArith Ascii String List Bool Lia.
From stdpp Require Import gmap strings list fin_maps pretty.

Local Open Scope string_scope.
Local Open Scope nat_scope.
Local Open Scope list_scope.

(** ** Regular expressions

    The fragment of ECMAScript regular expressions the schema uses:
    anchors, single-character atoms, greedy quantifiers over an atom,
    positive lookahead and concatenation.  Neither expression carries a
    flag, so [^] and [$] only match at the two ends of the input and [.]
    excludes line terminators.  A string is a sequence of code units; the
    embedding covers the code units below 256. *)

Module Regex.

Inductive item : Type :=
| Chr (c : ascii)
| Range (lo hi : ascii)
| Digit
| Space.

Inductive atom : Type :=
| Dot
| Lit (c : ascii)
| Cls (negated : bool) (items : list item).

Inductive regex : Type :=
| Bol
| Eol
| One (a : atom)
| Rep (a : atom) (lo : nat) (hi : option nat)
| Ahead (r : regex)
| Cat (r1 r2 : regex).

Definition code (c : ascii) : nat := nat_of_ascii c.

Definition between (lo hi : ascii) (c : ascii) : bool :=
  (code lo <=? code c) && (code c <=? code hi).

(** WhiteSpace and LineTerminator code units below 256: TAB, LF, VT, FF,
    CR, SP and NBSP.  This is both [\s] and what [String.prototype.trim]
    strips. *)
Definition is_space (c : ascii) : bool :=
  existsb (Nat.eqb (code c)) [9; 10; 11; 12; 13; 32; 160].

Definition is_line_terminator (c : ascii) : bool :=
  existsb (Nat.eqb (code c)) [10; 13].

Definition item_matches (it : item) (c : ascii) : bool :=
  match it with
  | Chr d => Ascii.eqb d c
  | Range lo hi => between lo hi c
  | Digit => between "0" "9" c
  | Space => is_space c
  end.

Definition atom_matches (a : atom) (c : ascii) : bool :=
  match a with
  | Dot => negb (is_line_terminator c)
  | Lit d => Ascii.eqb d c
  | Cls negated items => xorb negated (existsb (fun it => item_matches it c) items)
  end.

Definition may_repeat (hi : option nat) : bool :=
  match hi with
  | None => true
  | Some h => 0 <? h
  end.

(** [n] repetitions respect the upper bound. *)
Definition within (hi : option nat) (n : nat) : Prop :=
  match hi with
  | None => True
  | Some h => n <= h
  end.

(** Greedy quantifier: take one more character when allowed, fall back to
    the continuation once the lower bound is met. *)
Fixpoint rep (a : atom) (lo : nat) (hi : option nat) (i : nat)
    (s : list ascii) (k : nat -> list ascii -> bool) {struct s} : bool :=
  match s with
  | c :: t =>
      if atom_matches a c && may_repeat hi
      then rep a (Nat.pred lo) (option_map Nat.pred hi) (S i) t k
           || ((lo =? 0) && k i s)
      else (lo =? 0) && k i s
  | [] => (lo =? 0) && k i s
  end.

(** [run r i s k]: match [r] at offset [i], the rest of the input being
    [s]; [k] is what must match afterwards. *)
Fixpoint run (r : regex) (i : nat) (s : list ascii)
    (k : nat -> list ascii -> bool) {struct r} : bool :=
  match r with
  | Bol => (i =? 0) && k i s
  | Eol => match s with [] => k i s | _ :: _ => false end
  | One a =>
      match s with
      | c :: t => atom_matches a c && k (S i) t
      | [] => false
      end
  | Rep a lo hi => rep a lo hi i s k
  | Ahead r' => run r' i s (fun _ _ => true) && k i s
  | Cat r1 r2 => run r1 i s (fun j t => run r2 j t k)
  end.

(** What is left of a lookahead [(?=.*a)] once [.*] has stopped. *)
Definition accepts (a : atom) : nat -> list ascii -> bool :=
  fun j t => run (One a) j t (fun _ _ => true).

(** [RegExp.prototype.test]: a match may start at any offset. *)
Fixpoint search (r : regex) (i : nat) (s : list ascii) : bool :=
  run r i s (fun _ _ => true)
  || match s with
     | _ :: t => search r (S i) t
     | [] => false
     end.

Definition test (r : regex) (s : string) : bool :=
  search r 0 (list_ascii_of_string s).

Fixpoint seq (rs : list regex) (last : regex) : regex :=
  match rs with
  | [] => last
  | r :: rs' => Cat r (seq rs' last)
  end.

End Regex.

Import Regex.

(** ** The schema's validators *)

(** [[!@#$%^&*]] *)
Definition symbol_items : list item :=
  [Chr "!"; Chr "@"; Chr "#"; Chr "$"; Chr "%"; Chr "^"; Chr "&"; Chr "*"]%char.

(** [[A-Za-z\d!@#$%^&*]] *)
Definition password_items : list item :=
  [Range "A" "Z"; Range "a" "z"; Digit]%char ++ symbol_items.

(** [/^(?=.*[A-Z])(?=.*[!@#$%^&*])[A-Za-z\d!@#$%^&*]{8,50}$/] *)
Definition password_regex : regex :=
  seq [ Bol;
        Ahead (Cat (Rep Dot 0 None) (One (Cls false [Range "A" "Z"]%char)));
        Ahead (Cat (Rep Dot 0 None) (One (Cls false symbol_items)));
        Rep (Cls false password_items) 8 (Some 50) ]
      Eol.

(** [/^[^\s@]+@[^\s@]+\.[^\s@]+$/] *)
Definition email_regex : regex :=
  let word := Rep (Cls true [Space; Chr "@"]%char) 1 None in
  seq [ Bol; word; One (Lit "@"%char); word; One (Lit "."%char); word ] Eol.

(** [userSchema.password.validate.validator] *)
Definition password_validator (value : string) : bool :=
  test password_regex value.

(** [userSchema.email.validate.validator] *)
Definition email_validator (value : string) : bool :=
  test email_regex value.

(** ** Values, documents and the state a method runs in *)

(** What a schema path holds: a String, a Date (milliseconds since the
    epoch), a Boolean, or a Number on its way into a String or Date path. *)
Inductive value : Type :=
| Str (s : string)
| Date (ms : Z)
| Flag (b : bool)
| Num (n : Z).

#[global] Instance value_eq_dec : EqDecision value.
Proof. solve_decision. Defined.

Inductive schema_type : Type := TString | TDate | TBoolean.

(** The two Date paths the schema option [{ timestamps: true }] adds. *)
Definition timestamp_paths : list string := ["createdAt"; "updatedAt"].

(** The paths of [userSchema] with their declared types, those of the
    timestamps last. *)
Definition schema : list (string * schema_type) :=
  [ ("name", TString); ("email", TString); ("role", TString);
    ("dealershipApplicationStatus", TString);
    ("password", TString); ("passwordConfirm", TString);
    ("passwordResetToken", TString); ("passwordResetTokenExpires", TString);
    ("userConfirmationToken", TString); ("userConfirmationTokenExpires", TDate);
    ("passwordChangedAt", TDate);
    ("isUserConfirmed", TBoolean); ("applyForDealership", TBoolean);
    ("profilePhoto", TString);
    ("createdAt", TDate); ("updatedAt", TDate) ].

Definition type_of (p : string) : option schema_type :=
  snd <$> List.find (fun e => String.eqb (fst e) p) schema.

(** Paths declared with [trim: true]. *)
Definition trimmed : list string := ["name"; "email"; "password"].

Fixpoint drop_spaces (s : list ascii) : list ascii :=
  match s with
  | c :: t => if is_space c then drop_spaces t else s
  | [] => []
  end.

(** [String.prototype.trim] *)
Definition trim (s : string) : string :=
  string_of_list_ascii
    (rev (drop_spaces (rev (drop_spaces (list_ascii_of_string s))))).

(** Mongoose casts an assigned value to the type of its path: a Number
    becomes its decimal rendering on a String path and a timestamp on a Date
    path.  The methods below assign nothing else that is not of the type of
    its path, and the cast of such values is left out: a Boolean or a Date
    that a draft gives for a String path is kept as it is here, where
    Mongoose stores its [toString()].  The decimal rendering is that of
    JavaScript for a Number below 1e21 in size, which every timestamp in the
    range of a Date is. *)
Definition cast (t : schema_type) (v : value) : value :=
  match t, v with
  | TString, Num n => Str (pretty n)
  | TDate, Num n => Date n
  | _, _ => v
  end.

(** The setter [trim: true] puts on a String path. *)
Definition setter (p : string) (v : value) : value :=
  match v with
  | Str s => if existsb (String.eqb p) trimmed then Str (trim s) else v
  | _ => v
  end.

(** A document: what its paths hold, whether it was never saved, and the
    paths marked as modified since it was read or saved.  The identifier
    and the version key that Mongoose keeps with every document ([_id],
    [__v]) are no paths of this model. *)
Record document : Type := Document {
  fields : gmap string value;
  isNew : bool;
  modified : gset string
}.

(** What a method may throw: the [AppError] of [utils/appError.js] with
    its message and status code, Mongoose's errors on validation and on
    updating a record that is not there, and a rejection by a library. *)
Inductive error : Type :=
| AppError (message : string) (statusCode : Z)
| ValidationError (errors : list (string * string))
| DocumentNotFoundError
| LibraryError (message : string).

Inductive result (A : Type) : Type :=
| Ok (a : A)
| Throw (e : error).
Arguments Ok {A} a.
Arguments Throw {A} e.

(** [this] is the receiver of the running method, [stored] the user's
    record in the collection (absent before the first insert), [clock] what
    [Date.now()] and [new Date()] read and [entropy] the bytes
    [crypto.randomBytes] hands out, [drawn] of which are used up.  A call
    runs at one reading of the clock; between two calls the clock moves
    on, see [later]. *)
Record state : Type := State {
  this : document;
  stored : option (gmap string value);
  clock : Z;
  entropy : nat -> Byte.byte;
  drawn : nat
}.

Definition with_this (d : document) (st : state) : state :=
  {| this := d; stored := stored st; clock := clock st;
     entropy := entropy st; drawn := drawn st |}.

Definition with_stored (r : gmap string value) (st : state) : state :=
  {| this := this st; stored := Some r; clock := clock st;
     entropy := entropy st; drawn := drawn st |}.

Definition with_drawn (n : nat) (st : state) : state :=
  {| this := this st; stored := stored st; clock := clock st;
     entropy := entropy st; drawn := n |}.

(** The state a later call finds, when the clock has come to read [now]. *)
Definition later (now : Z) (st : state) : state :=
  {| this := this st; stored := stored st; clock := now;
     entropy := entropy st; drawn := drawn st |}.

(** An [async] method: it runs to a value or a rejection and leaves a
    state behind either way. *)
Definition M (A : Type) : Type := state -> result A * state.

#[global] Instance M_ret : MRet M := fun A a st => (Ok a, st).

#[global] Instance M_bind : MBind M := fun A B f m st =>
  match m st with
  | (Ok a, st') => f a st'
  | (Throw e, st') => (Throw e, st')
  end.

Definition throw {A : Type} (e : error) : M A := fun st => (Throw e, st).

Definition read {A : Type} (f : state -> A) : M A := fun st => (Ok (f st), st).

Definition update (f : state -> state) : M unit := fun st => (Ok tt, f st).

(** Reading a path of [this]. *)
Definition get (p : string) : M (option value) :=
  read (fun st => fields (this st) !! p).

(** [this.isModified(p)] *)
Definition isModified (p : string) (d : document) : bool :=
  bool_decide (p ∈ modified d).

(** [this.isModified()]: some path is marked. *)
Definition anyModified (d : document) : bool :=
  negb (bool_decide (modified d = ∅)).

(** Assigning a path of a document: the value goes through the path's
    setter and cast, [undefined] unsets the path, and the path is marked
    modified.  (Mongoose leaves out the mark when the document already
    holds the assigned value; the stored record then holds it too, unless
    somebody else wrote to it since the document was read, and races
    between requests are left out here.  With nothing else marked, such an
    assignment makes the save here a write of the value already stored and
    of [updatedAt], where Mongoose sends no write: the properties below
    speak of [updatedAt] only after an assignment that changes a value.) *)
Definition coerce (p : string) (v : value) : value :=
  match type_of p with
  | Some t => cast t (setter p v)
  | None => v
  end.

Definition assign (p : string) (v : option value) (d : document) : document :=
  {| fields := match v with
               | Some x => <[p := coerce p x]> (fields d)
               | None => delete p (fields d)
               end;
     isNew := isNew d;
     modified := {[p]} ∪ modified d |}.

(** [this.p = v] *)
Definition set (p : string) (v : option value) : M unit :=
  update (fun st => with_this (assign p v (this st)) st).

(** [Date.now()] *)
Definition Date_now : M Z := read clock.

Definition hex_digit (n : N) : ascii :=
  match n with
  | 0 => "0" | 1 => "1" | 2 => "2" | 3 => "3" | 4 => "4" | 5 => "5"
  | 6 => "6" | 7 => "7" | 8 => "8" | 9 => "9" | 10 => "a" | 11 => "b"
  | 12 => "c" | 13 => "d" | 14 => "e" | _ => "f"
  end%N%char.

(** [buffer.toString("hex")] *)
Fixpoint to_hex (bs : list Byte.byte) : string :=
  match bs with
  | [] => EmptyString
  | b :: bs' =>
      let n := Byte.to_N b in
      String (hex_digit (n / 16)) (String (hex_digit (n mod 16)) (to_hex bs'))
  end.

(** [crypto.randomBytes(n)] *)
Definition randomBytes (n : nat) : M (list Byte.byte) := fun st =>
  (Ok (List.map (fun j => entropy st (drawn st + j)) (List.seq 0 n)),
   with_drawn (drawn st + n) st).

(** ** What the model leaves open *)

(** [DEALERSHIP_APPLICATION_STATUS] and [ROLES] of [utils/constants.js],
    which is not under src/: six strings. *)
Class Constants : Type := {
  APPROVED : string;
  PENDING : string;
  REJECTED : string;
  USER : string;
  DEALER : string;
  ADMIN : string
}.

(** The two libraries the model calls into.
    - [sha256_hex s] is [crypto.createHash("sha256").update(s).digest("hex")];
    - [bcrypt_hash data rounds salt] is [bcrypt.hash(data, rounds)], given
      the salt bytes it draws; it rejects arguments it cannot hash;
    - [bcrypt_compare data hash] is [bcrypt.compare(data, hash)]. *)
Class Crypto : Type := {
  sha256_hex : string -> string;
  bcrypt_hash : option value -> Z -> list Byte.byte -> error + string;
  bcrypt_compare : option value -> option value -> error + bool
}.

(** ** The model *)

Section Model.

Context `{Constants} `{Crypto}.

Definition lift {A : Type} (r : error + A) : M A :=
  match r with
  | inl e => throw e
  | inr a => mret a
  end.

(** *** Validation *)

(** Mongoose's [required] on a path: the value is there and, for a String,
    is not empty. *)
Definition missing (v : option value) : bool :=
  match v with
  | None => true
  | Some (Str s) => String.length s =? 0
  | Some _ => false
  end.

(** The validators of a path run in the order they are declared and the
    first failure is the path's error. *)
Fixpoint first_failure (checks : list (bool * string)) : option string :=
  match checks with
  | [] => None
  | (failed, message) :: rest =>
      if failed then Some message else first_failure rest
  end.

(** A validator other than [required] is skipped on an absent value. *)
Definition on_string (v : option value) (f : string -> bool) : bool :=
  match v with
  | Some (Str s) => f s
  | _ => false
  end.

(** [userSchema.password.validate.message] *)
Definition password_message (value : string) : string :=
  if String.length value <? 8 then
    "Password must be at least 8 characters"
  else if 50 <? String.length value then
    "Password must be at most 50 characters"
  else if negb (test (One (Cls false [Range "A" "Z"]%char)) value) then
    "Password must contain at least one uppercase letter"
  else if negb (test (One (Cls false symbol_items)) value) then
    "Password must contain at least one special character"
  else "Invalid password".

Definition password_text (v : option value) : string :=
  match v with
  | Some (Str s) => s
  | _ => EmptyString
  end.

Definition enum_message (what : string) (choices : string) : string :=
  "Invalid " +:+ what +:+ ". Choose from: " +:+ choices.

Definition path_checks (f : gmap string value) : list (string * list (bool * string)) :=
  [ ("name",
      [ (missing (f !! "name"), "Path `name` is required.");
        (on_string (f !! "name") (fun s => String.length s <? 4),
          "name cannot be less than 4 characters");
        (on_string (f !! "name") (fun s => 50 <? String.length s),
          "name cannot be more than 50 characters") ]);
    ("email",
      [ (missing (f !! "email"), "Email is required");
        (on_string (f !! "email") (fun s => negb (email_validator s)),
          "Invalid email address") ]);
    ("role",
      [ (on_string (f !! "role")
           (fun s => negb (existsb (String.eqb s) [USER; DEALER; ADMIN])),
          enum_message "role" (USER +:+ "," +:+ DEALER +:+ ", " +:+ ADMIN)) ]);
    ("dealershipApplicationStatus",
      [ (on_string (f !! "dealershipApplicationStatus")
           (fun s => negb (existsb (String.eqb s) [APPROVED; PENDING; REJECTED])),
          enum_message "dealership application status"
            (APPROVED +:+ ", " +:+ PENDING +:+ " and " +:+ REJECTED)) ]);
    ("password",
      [ (missing (f !! "password"), "Password is required");
        (on_string (f !! "password") (fun s => negb (password_validator s)),
          password_message (password_text (f !! "password"))) ]);
    ("passwordConfirm",
      [ (missing (f !! "passwordConfirm"), "Confirm password is required");
        (on_string (f !! "passwordConfirm")
           (fun s => negb (bool_decide (Some (Str s) = f !! "password"))),
          "Passwords do not match") ]) ].

Definition validation_errors (f : gmap string value) : list (string * string) :=
  omap (fun '(p, checks) => pair p <$> first_failure checks) (path_checks f).

(** The validation that [save] runs first unless told otherwise.  The
    validators of every path run, as Mongoose has it for a new document and
    for one whose paths are all loaded; for a document read with a path
    left out ([select: false]) Mongoose skips that path unless it is
    marked, and what a query loads is not part of this model. *)
Definition validate : M unit := fun st =>
  match validation_errors (fields (this st)) with
  | [] => (Ok tt, st)
  | errors => (Throw (ValidationError errors), st)
  end.

(** *** The [pre("save")] hooks, in the order they run *)

(** [{ timestamps: true }] makes the schema register a hook of its own
    when it is built, so ahead of the two the file registers.  A new
    document gets the time as [createdAt], unless it holds one, and its
    [createdAt] as [updatedAt]; any other document gets the time as
    [updatedAt] when a path of it is marked (Mongoose 6 and later). *)
Definition timestamps_hook : M unit :=
  d ← read this;
  now ← Date_now;
  if isNew d then
    (if bool_decide (fields d !! "createdAt" = None)
     then set "createdAt" (Some (Date now)) else mret tt);;
    created ← get "createdAt";
    set "updatedAt" created
  else if anyModified d then set "updatedAt" (Some (Date now))
  else mret tt.

(** [bcrypt.hash(data, rounds)] checks its arguments before it draws the
    16 bytes of the salt: a rejection leaves the random source as it was. *)
Definition hash (data : option value) (rounds : Z) : M string := fun st =>
  match randomBytes 16 st with
  | (Ok salt, st') =>
      match bcrypt_hash data rounds salt with
      | inr digest => (Ok digest, st')
      | inl e => (Throw e, st)
      end
  | (Throw e, st') => (Throw e, st')
  end.

Definition hash_password_hook : M unit :=
  d ← read this;
  if isModified "password" d then
    digest ← hash (fields d !! "password") 13;
    set "password" (Some (Str digest));;
    set "passwordConfirm" None
  else mret tt.

Definition password_changed_hook : M unit :=
  d ← read this;
  if negb (isNew d) && isModified "password" d then
    now ← Date_now;
    set "passwordChangedAt" (Some (Num (now - 1000)))
  else mret tt.

(** *** Writing the document *)

(** An update writes the modified paths only: those with a value are set,
    those without are unset, every other stored path is left alone. *)
Definition write_back (m : gset string) (doc rec : gmap string value)
    : gmap string value :=
  filter (fun kv => kv.1 ∈ m) doc ∪ filter (fun kv => kv.1 ∉ m) rec.

(** Once written, a document is not new and nothing in it is marked. *)
Definition settled (d : document) : document :=
  {| fields := fields d; isNew := false; modified := ∅ |}.

(** A new document is inserted whole; any other is an update of its
    record, which has to be there. *)
Definition persist : M unit := fun st =>
  let d := this st in
  if isNew d then
    (Ok tt, with_this (settled d) (with_stored (fields d) st))
  else
    match stored st with
    | Some rec =>
        (Ok tt, with_this (settled d)
                  (with_stored (write_back (modified d) (fields d) rec) st))
    | None => (Throw DocumentNotFoundError, st)
    end.

(** [this.save({ validateBeforeSave })]: Mongoose validates before any
    other hook runs. *)
Definition save (validateBeforeSave : bool) : M unit :=
  (if validateBeforeSave then validate else mret tt);;
  timestamps_hook;;
  hash_password_hook;;
  password_changed_hook;;
  persist.

(** The paths [l] of a fresh document, assigned from a draft. *)
Definition filled (draft : gmap string value) (l : list (string * schema_type))
    : document :=
  foldr (fun e d => match draft !! e.1 with
                    | Some v => assign e.1 (Some v) d
                    | None => d
                    end)
        {| fields := ∅; isNew := true; modified := ∅ |} l.

(** [new User(draft)]: every path of the schema the draft gives is
    assigned, [role] gets its default. *)
Definition construct (draft : gmap string value) : document :=
  let d := filled draft schema in
  match fields d !! "role" with
  | Some _ => d
  | None => {| fields := <["role" := Str USER]> (fields d);
               isNew := isNew d; modified := modified d |}
  end.

(** [User.create(draft)] *)
Definition create (draft : gmap string value) : M unit :=
  update (with_this (construct draft));;
  save true.

(** *** Methods *)

(** Modelled from the spec: [createTimeStampInEpoch] of [utils/utils.js] is
    not under src/; section 4.2 gives the expiry as now plus the window, so
    [{ min }] is [min] minutes after [Date.now()]. *)
Definition createTimeStampInEpoch (min : Z) : M Z :=
  now ← Date_now;
  mret (now + min * 60 * 1000)%Z.

(** [getTime() / 1000 > jwtIsa], the quotient taken exactly: for a
    timestamp in the range of a Date and a whole number of seconds the
    double the code computes compares the same way.  A Date path holds
    nothing but a Date, and a Date is truthy. *)
Definition passwordChangedAfterJwt (jwtIsa : Z) (d : document) : bool :=
  match fields d !! "passwordChangedAt" with
  | Some (Date ms) => negb (Qle_bool (Qmake ms 1000) (inject_Z jwtIsa))
  | _ => false
  end.

Definition comparePassword (plainPassword hashedPassword : option value)
    : M bool :=
  lift (bcrypt_compare plainPassword hashedPassword).

Definition generateAndSavePasswordResetToken : M string :=
  bytes ← randomBytes 32;
  let token := to_hex bytes in
  set "passwordResetToken" (Some (Str (sha256_hex token)));;
  expires ← createTimeStampInEpoch 10;
  set "passwordResetTokenExpires" (Some (Num expires));;
  save false;;
  mret token.

Definition generateAndSaveUserConfirmationToken : M string :=
  bytes ← randomBytes 32;
  let token := to_hex bytes in
  set "userConfirmationToken" (Some (Str (sha256_hex token)));;
  expires ← createTimeStampInEpoch 10;
  set "userConfirmationTokenExpires" (Some (Num expires));;
  save false;;
  mret token.

(** The argument is a string or [undefined]. *)
Definition dealershipApplicationResponse (status : option string) : M unit :=
  current ← get "dealershipApplicationStatus";
  if bool_decide (current = Some (Str APPROVED)) then
    throw (AppError "Cannot modify an already application" 403)
  else
    set "dealershipApplicationStatus" (Str <$> status);;
    save false.

Definition revokeDealershipApplication : M unit :=
  current ← get "dealershipApplicationStatus";
  if negb (bool_decide (current = Some (Str APPROVED))) then
    throw (AppError "Only approved applications can be revoked" 403)
  else
    set "dealershipApplicationStatus" (Some (Str REJECTED));;
    save false.

(** *** Calls in a row

    A controller makes one call per request; a rejected call leaves the
    state as the method left it and the next request goes on from there. *)

Inductive call : Type :=
| Respond (decision : option string)
| Revoke.

Definition perform (c : call) : M unit :=
  match c with
  | Respond decision => dealershipApplicationResponse decision
  | Revoke => revokeDealershipApplication
  end.

Fixpoint perform_all (cs : list call) (st : state) : state :=
  match cs with
  | [] => st
  | c :: cs' => perform_all cs' (perform c st).2
  end.

(** *** Vocabulary of the properties *)

(** What the document holds at a path, and what the stored record does. *)
Definition held (p : string) (st : state) : option value :=
  fields (this st) !! p.

Definition kept (p : string) (st : state) : option value :=
  stored st ≫= (.!! p).

(** The state [this.dealershipApplicationStatus = v] hands to [save]. *)
Definition answered (v : option string) (st : state) : state :=
  with_this (assign "dealershipApplicationStatus" (Str <$> v) (this st)) st.

(** The paths the two hooks of the file write. *)
Definition hook_paths : list string :=
  ["password"; "passwordConfirm"; "passwordChangedAt"].

(** What a hook of [save] that writes the paths [written] leaves alone: the
    clock, the random bytes, the stored record, whether the document is
    new, the mark of the password, and every other path with its mark. *)
Definition framed (written : list string) (st st' : state) : Prop :=
  clock st' = clock st /\ entropy st' = entropy st /\
  stored st' = stored st /\ isNew (this st') = isNew (this st) /\
  isModified "password" (this st') = isModified "password" (this st) /\
  forall p, p ∉ written ->
    held p st' = held p st /\ isModified p (this st') = isModified p (this st).

(** The state the timestamps hook hands on. *)
Definition timestamped (st : state) : state :=
  let d := this st in
  if isNew d then
    let d1 := if bool_decide (fields d !! "createdAt" = None)
              then assign "createdAt" (Some (Date (clock st))) d else d in
    with_this (assign "updatedAt" (fields d1 !! "createdAt") d1) st
  else if anyModified d then
    with_this (assign "updatedAt" (Some (Date (clock st))) d) st
  else st.

(** What a save that goes through stores at a path no hook assigns: a new
    document's value, a marked value, else what was stored. *)
Definition carried (p : string) (st : state) : option value :=
  if isNew (this st) || isModified p (this st) then held p st else kept p st.

(** The salt [bcrypt.hash] draws when it is called in state [st]. *)
Definition salt_at (st : state) : list Byte.byte :=
  List.map (fun j => entropy st (drawn st + j)) (List.seq 0 16).

(** The token [crypto.randomBytes(32)] gives in state [st], in hex. *)
Definition token_at (st : state) : string :=
  to_hex (List.map (fun j => entropy st (drawn st + j)) (List.seq 0 32)).

(** A window of [n] minutes, in the milliseconds of the clock. *)
Definition minutes (n : Z) : Z := (n * 60 * 1000)%Z.

(** The state [generateAndSavePasswordResetToken] hands to [save]: 32
    bytes drawn, the digest of the token and the expiry assigned. *)
Definition reset_issued (st : state) : state :=
  let st1 := with_drawn (drawn st + 32) st in
  with_this
    (assign "passwordResetTokenExpires" (Some (Num (clock st + minutes 10)))
       (assign "passwordResetToken" (Some (Str (sha256_hex (token_at st))))
          (this st1))) st1.

(** A pending change of password can be hashed, whatever the salt. *)
Definition hashable (st : state) : Prop :=
  isModified "password" (this st) = true ->
  forall salt, exists digest,
    bcrypt_hash (held "password" st) 13 salt = inr digest.

(** The record a document that is not new belongs to is there. *)
Definition on_record (st : state) : Prop :=
  isNew (this st) = true \/ is_Some (stored st).

(** The decisions an admin can take. *)
Definition is_decision (d : option string) : Prop :=
  d = Some APPROVED \/ d = Some REJECTED.

Definition decided (c : call) : Prop :=
  match c with
  | Respond d => is_decision d
  | Revoke => True
  end.

End Model.

(** The spec's [ForbiddenTransitionError]: an [AppError] with status 403. *)
Definition ForbiddenTransitionError (e : error) : bool :=
  match e with
  | AppError _ statusCode => (statusCode =? 403)%Z
  | _ => false
  end.

(** *** The password policy, in the words of the spec and as the
    expression has it *)

Definition is_upper (c : ascii) : bool := between "A" "Z" c.

Definition is_symbol (c : ascii) : bool :=
  existsb (fun d => Ascii.eqb d c) ["!"; "@"; "#"; "$"; "%"; "^"; "&"; "*"]%char.

Definition is_allowed (c : ascii) : bool :=
  between "A" "Z" c || between "a" "z" c || between "0" "9" c || is_symbol c.

(** At least one uppercase letter, at least one symbol, length 8 to 50. *)
Definition complexity_policy (s : string) : bool :=
  let l := list_ascii_of_string s in
  existsb is_upper l && existsb is_symbol l
  && (8 <=? length l) && (length l <=? 50).

(** Nothing but letters, digits and the eight symbols. *)
Definition only_allowed (s : string) : bool :=
  forallb is_allowed (list_ascii_of_string s).

(** ** A sample environment

    Stand-ins on which the statements below are run: the constants under
    the names the spec gives them, and functions in place of the digests
    that keep their inputs visible. *)

Module Sample.

#[local] Instance constants : Constants := {|
  APPROVED := "APPROVED"; PENDING := "PENDING"; REJECTED := "REJECTED";
  USER := "USER"; DEALER := "DEALER"; ADMIN := "ADMIN"
|}.

#[local] Instance crypto : Crypto := {|
  sha256_hex := fun s => "sha256:" +:+ s;
  bcrypt_hash := fun data rounds salt =>
    match data with
    | Some (Str s) => inr ("$2b$" +:+ pretty rounds +:+ "$" +:+ to_hex salt +:+ s)
    | _ => inl (LibraryError "data and salt arguments required")
    end;
  bcrypt_compare := fun data hash =>
    match data, hash with
    | Some (Str _), Some (Str _) => inr false
    | _, _ => inl (LibraryError "data and hash arguments required")
    end
|}.

Definition bytes (n : nat) : Byte.byte :=
  default Byte.x00 (Byte.of_nat (n mod 256)).

(** Nobody is there yet. *)
Definition nobody : state :=
  {| this := {| fields := ∅; isNew := true; modified := ∅ |};
     stored := None; clock := 1700000000000; entropy := bytes; drawn := 0 |}.

Definition draft : gmap string value :=
  list_to_map [ ("name", Str "Alice"); ("email", Str "a@b.com");
                ("password", Str "Abcdef1!");
                ("passwordConfirm", Str "Abcdef1!") ].

(** A user read from the collection whose application is in [status]. *)
Definition applicant (status : string) : state :=
  let record : gmap string value :=
    list_to_map [ ("name", Str "Alice"); ("email", Str "a@b.com");
                  ("role", Str "USER");
                  ("dealershipApplicationStatus", Str status) ] in
  {| this := {| fields := record; isNew := false; modified := ∅ |};
     stored := Some record; clock := 1700000000000; entropy := bytes;
     drawn := 0 |}.

(** The same user about to change password. *)
Definition changing (status : string) : state :=
  let st := applicant status in
  with_this (assign "passwordConfirm" (Some (Str "Zyxwvu9*"))
               (assign "password" (Some (Str "Zyxwvu9*")) (this st))) st.

(** A user who changed password at the sample clock. *)
Definition stamped : document :=
  {| fields := {[ "passwordChangedAt" := Date 1700000000000 ]};
     isNew := false; modified := ∅ |}.

(** A password of eight good characters and fifty blanks. *)
Definition padded : string :=
  "Abcdef1!" +:+ string_of_list_ascii (replicate 50 " "%char).

(** Four calls an admin may make in a row. *)
Definition calls : list call :=
  [ Respond (Some "APPROVED"); Respond (Some "REJECTED"); Revoke;
    Respond (Some "REJECTED") ].

End Sample.

(** ** What an expression accepts

    [denote r i pre post]: at offset [i], the expression [r] can consume
    [pre] when [post] is what follows it in the input. *)

Fixpoint denote (r : regex) (i : nat) (pre post : list ascii) : Prop :=
  match r with
  | Bol => i = 0 /\ pre = []
  | Eol => pre = [] /\ post = []
  | One a => exists c, pre = [c] /\ atom_matches a c = true
  | Rep a lo hi =>
      lo <= length pre /\ within hi (length pre) /\
      forallb (atom_matches a) pre = true
  | Ahead r' => pre = [] /\ exists p q, post = p ++ q /\ denote r' i p q
  | Cat r1 r2 =>
      exists p1 p2, pre = p1 ++ p2 /\
        denote r1 i p1 (p2 ++ post) /\ denote r2 (i + length p1) p2 post
  end.

(** ** The expressions of the car schema *)

(** [/^[A-HJ-NPR-Z0-9]{17}$/] *)
Definition vin_regex : regex :=
  seq [ Bol;
        Rep (Cls false [Range "A" "H"; Range "J" "N"; Chr "P"; Range "R" "Z";
                        Range "0" "9"]%char) 17 (Some 17) ]
      Eol.

(** [/^\d{15}$/] *)
Definition imei_regex : regex :=
  seq [ Bol; Rep (Cls false [Digit]) 15 (Some 15) ] Eol.

(** [/^[A-Z]{3}-?\d{3}[A-Z]{2}$/] *)
Definition plate_regex : regex :=
  seq [ Bol;
        Rep (Cls false [Range "A" "Z"]%char) 3 (Some 3);
        Rep (Lit "-"%char) 0 (Some 1);
        Rep (Cls false [Digit]) 3 (Some 3);
        Rep (Cls false [Range "A" "Z"]%char) 2 (Some 2) ]
      Eol.

(** [carSchema.imei.validate.validator] *)
Definition imei_validator (v : string) : bool := test imei_regex v.

(** ** Plain readings of the character classes *)

Definition is_digit (c : ascii) : bool := between "0" "9" c.

(** [[^\s@]] *)
Definition is_email_char (c : ascii) : bool :=
  negb (is_space c) && negb (Ascii.eqb "@" c).

(** A capital letter other than I, O and Q, or a digit. *)
Definition is_vin_char (c : ascii) : bool :=
  (is_upper c || is_digit c)
  && negb (existsb (fun d => Ascii.eqb d c) ["I"; "O"; "Q"]%char).

Definition is_hex_digit (c : ascii) : bool :=
  between "0" "9" c || between "a" "f" c.

(** ** Vocabulary of further properties *)

(** Neither the first nor the last character is white space. *)
Definition tight (l : list ascii) : Prop :=
  (forall c, head l = Some c -> is_space c = false) /\
  (forall c, last l = Some c -> is_space c = false).

(** The paths of a draft that are given are given as strings. *)
Definition textual (f : gmap string value) : Prop :=
  forall p v,
    p ∈ ["name"; "email"; "role"; "password"; "passwordConfirm"] ->
    f !! p = Some v -> exists s, v = Str s.

(** The state [generateAndSaveUserConfirmationToken] hands to [save]. *)
Definition confirmation_issued `{Crypto} (st : state) : state :=
  let st1 := with_drawn (drawn st + 32) st in
  with_this
    (assign "userConfirmationTokenExpires" (Some (Num (clock st + minutes 10)))
       (assign "userConfirmationToken" (Some (Str (sha256_hex (token_at st))))
          (this st1))) st1.

(** A document as it is read from the collection or left by a save. *)
Definition clean (st : state) : Prop :=
  isNew (this st) = false /\ modified (this st) = ∅.

(** The value of a hex digit, and the byte two of them spell. *)
Definition hex_value (c : ascii) : N :=
  let n := N_of_ascii c in
  if (48 <=? n)%N && (n <=? 57)%N then (n - 48)%N else (n - 87)%N.

Fixpoint from_hex (l : list ascii) : list Byte.byte :=
  match l with
  | hi :: lo :: rest =>
      match Byte.of_N (16 * hex_value hi + hex_value lo) with
      | Some b => b :: from_hex rest
      | None => []
      end
  | _ => []
  end.

(** ** Further samples *)

Module More.

(** A user read from the collection with a change of password pending
    that the validator would turn down. *)
Definition careless : state :=
  let st := Sample.applicant "PENDING" in
  with_this (assign "password" (Some (Str "abc")) (this st)) st.

End More.

(** ** The matcher on the password expression *)

Section Matcher.

(** What a quantifier accepts: some number of leading characters of the
    atom, within the bounds, after which the continuation accepts. *)
Lemma rep_spec a s : forall lo hi i k,
  rep a lo hi i s k = true <->
  exists n, n <= length s /\ lo <= n /\ within hi n /\
            forallb (atom_matches a) (take n s) = true /\
            k (i + n) (drop n s) = true.
Proof.
  induction s as [|c t IH]; intros lo hi i k; simpl.
  - rewrite andb_true_iff, Nat.eqb_eq. split.
    + intros [-> Hk]. exists 0. rewrite Nat.add_0_r.
      repeat split; auto. destruct hi; simpl; lia.
    + intros (n & Hn & Hlo & _ & _ & Hk).
      assert (n = 0) as -> by lia.
      rewrite Nat.add_0_r in Hk. simpl in Hk. split; [lia | done].
  - assert (Hstop : (lo =? 0) && k i (c :: t) = true <->
              lo = 0 /\ k (i + 0) (drop 0 (c :: t)) = true).
    { rewrite andb_true_iff, Nat.eqb_eq, Nat.add_0_r. done. }
    destruct (atom_matches a c && may_repeat hi) eqn:Hstep.
    + apply andb_true_iff in Hstep as [Hc Hhi].
      rewrite orb_true_iff, IH, Hstop. split.
      * intros [(n & Hn & Hlo & Hw & Hall & Hk) | [-> Hk]].
        -- exists (S n). simpl. rewrite Hc, Hall.
           replace (i + S n) with (S i + n) by lia.
           repeat split; auto; try lia.
           destruct hi as [h|]; simpl in *; [|done].
           apply Nat.ltb_lt in Hhi. lia.
        -- exists 0. repeat split; auto; try lia.
           destruct hi; simpl; lia.
      * intros ([|n] & Hn & Hlo & Hw & Hall & Hk).
        -- right. split; [lia | done].
        -- left. exists n. simpl in Hall, Hk.
           apply andb_true_iff in Hall as [_ Hall].
           replace (S i + n) with (i + S n) by lia.
           repeat split; auto; try lia.
           destruct hi as [h|]; simpl in *; [lia | done].
    + rewrite Hstop. split.
      * intros [-> Hk]. exists 0. repeat split; auto; try lia.
        destruct hi; simpl; lia.
      * intros ([|n] & Hn & Hlo & Hw & Hall & Hk); [split; [lia | done]|].
        simpl in Hall. apply andb_true_iff in Hall as [Hc _].
        rewrite Hc in Hstep. simpl in Hstep.
        destruct hi as [h|]; simpl in *; [|done].
        apply Nat.ltb_ge in Hstep. lia.
Qed.

(** An expression that begins with [^] matches at no later offset. *)
Lemma search_anchored r s : forall i,
  search (Cat Bol r) (S i) s = false.
Proof.
  induction s as [|c t IH]; intros i; simpl; [done|].
  apply IH.
Qed.

Lemma test_anchored r s :
  test (Cat Bol r) s = run r 0 (list_ascii_of_string s) (fun _ _ => true).
Proof.
  unfold test. destruct (list_ascii_of_string s) as [|c t]; simpl.
  - by rewrite orb_false_r.
  - by rewrite search_anchored, orb_false_r.
Qed.

(** [(?=.*a)]: some character of the atom, with no line break before it. *)
Lemma look_spec a l i :
  rep Dot 0 None i l (accepts a) = true <->
  exists n c, l !! n = Some c /\ atom_matches a c = true /\
              forallb (atom_matches Dot) (take n l) = true.
Proof.
  rewrite rep_spec. split.
  - intros (n & _ & _ & _ & Hall & Hk). unfold accepts in Hk. simpl in Hk.
    destruct (drop n l) as [|c t] eqn:Hd; [done|].
    exists n, c. rewrite andb_true_r in Hk. repeat split; auto.
    rewrite <- (Nat.add_0_r n), <- lookup_drop, Hd. done.
  - intros (n & c & Hn & Hc & Hall). exists n.
    pose proof (lookup_lt_Some _ _ _ Hn) as Hlt.
    repeat split; auto; try lia.
    unfold accepts. simpl.
    rewrite (drop_S _ _ _ Hn), Hc. done.
Qed.

(** [a{lo,hi}$]: the whole rest, of a length within the bounds. *)
Lemma body_spec a lo hi l i :
  rep a lo (Some hi) i l (fun j t => run Eol j t (fun _ _ => true)) = true <->
  lo <= length l /\ length l <= hi /\ forallb (atom_matches a) l = true.
Proof.
  rewrite rep_spec. split.
  - intros (n & Hn & Hlo & Hhi & Hall & Hk). simpl in Hhi, Hk.
    destruct (drop n l) as [|c t] eqn:Hd; [|done].
    assert (length (drop n l) = 0) as Hlen by (by rewrite Hd).
    rewrite length_drop in Hlen.
    assert (n = length l) as -> by lia.
    rewrite firstn_all in Hall. auto.
  - intros (Hlo & Hhi & Hall). exists (length l).
    rewrite firstn_all, drop_all. simpl. repeat split; auto.
Qed.

Lemma existsb_pointwise {A} (f g : A -> bool) l :
  (forall x, f x = g x) -> existsb f l = existsb g l.
Proof. intros E. induction l as [|x l IH]; simpl; [done|]. by rewrite E, IH. Qed.

Lemma forallb_pointwise {A} (f g : A -> bool) l :
  (forall x, f x = g x) -> forallb f l = forallb g l.
Proof. intros E. induction l as [|x l IH]; simpl; [done|]. by rewrite E, IH. Qed.

Lemma upper_atom c :
  atom_matches (Cls false [Range "A" "Z"]%char) c = is_upper c.
Proof. unfold is_upper. simpl. by rewrite orb_false_r. Qed.

Lemma symbol_atom c : atom_matches (Cls false symbol_items) c = is_symbol c.
Proof. reflexivity. Qed.

Lemma allowed_atom c : atom_matches (Cls false password_items) c = is_allowed c.
Proof.
  unfold is_allowed, is_symbol. simpl. by rewrite <- !orb_assoc.
Qed.

(** No allowed character is a line terminator. *)
Lemma allowed_dot c : is_allowed c = true -> atom_matches Dot c = true.
Proof.
  destruct c as [[] [] [] [] [] [] [] []]; vm_compute; congruence.
Qed.

Lemma look_allowed a l :
  forallb is_allowed l = true ->
  rep Dot 0 None 0 l (accepts a) = existsb (atom_matches a) l.
Proof.
  intros Hall. apply eq_true_iff_eq.
  rewrite look_spec, existsb_exists. split.
  - intros (n & c & Hn & Hc & _). exists c. split; [|done].
    apply list_elem_of_In. by eapply list_elem_of_lookup_2.
  - intros (c & Hin & Hc).
    apply list_elem_of_In, list_elem_of_lookup in Hin as [n Hn].
    exists n, c. repeat split; auto.
    apply forallb_forall. intros d Hd. apply allowed_dot.
    rewrite forallb_forall in Hall. apply Hall.
    apply list_elem_of_In. apply list_elem_of_In in Hd.
    by apply (subseteq_take n l).
Qed.

(** The validator, character by character. *)
Lemma password_validator_spec s :
  password_validator s = complexity_policy s && only_allowed s.
Proof.
  unfold password_validator, password_regex, complexity_policy, only_allowed.
  simpl seq. rewrite test_anchored.
  set (l := list_ascii_of_string s).
  change (run _ 0 l _) with
    (rep Dot 0 None 0 l (accepts (Cls false [Range "A" "Z"]%char))
     && (rep Dot 0 None 0 l (accepts (Cls false symbol_items))
         && rep (Cls false password_items) 8 (Some 50) 0 l
              (fun j t => run Eol j t (fun _ _ => true)))).
  destruct (forallb is_allowed l) eqn:Hall.
  - rewrite !look_allowed by done.
    rewrite (existsb_pointwise _ _ l upper_atom), (existsb_pointwise _ _ l symbol_atom).
    replace (rep _ 8 (Some 50) 0 l _) with ((8 <=? length l) && (length l <=? 50)).
    { by rewrite andb_true_r, !andb_assoc. }
    apply eq_true_iff_eq.
    rewrite body_spec, !andb_true_iff, !Nat.leb_le.
    rewrite (forallb_pointwise _ _ l allowed_atom), Hall. tauto.
  - rewrite andb_false_r.
    replace (rep _ 8 (Some 50) 0 l _) with false; [by rewrite !andb_false_r|].
    symmetry. apply not_true_iff_false. rewrite body_spec.
    rewrite (forallb_pointwise _ _ l allowed_atom), Hall. intros (_ & _ & ?). done.
Qed.

End Matcher.

(** ** What a save does *)

(** The goals that a path given by name is none of those a hook writes. *)
Ltac off_paths :=
  unfold hook_paths, timestamp_paths;
  rewrite ?not_elem_of_app, ?not_elem_of_cons;
  repeat split; try done; apply not_elem_of_nil.

(** The goals that a name is one of a list given in full. *)
Ltac in_list :=
  repeat first [apply list_elem_of_here | apply list_elem_of_further].

Section Saving.

Context `{Constants} `{Crypto}.


Lemma lookup_write_back (m : gset string) (doc rec : gmap string value) p :
  write_back m doc rec !! p = if decide (p ∈ m) then doc !! p else rec !! p.
Proof.
  unfold write_back. rewrite lookup_union, !map_lookup_filter. simpl.
  destruct (decide (p ∈ m)) as [Hin|Hout].
  - destruct (doc !! p) as [x|]; simpl.
    + rewrite option_guard_True by done. simpl. by destruct (_ ≫= _).
    + destruct (rec !! p); simpl; [|done].
      by rewrite option_guard_False by auto.
  - destruct (doc !! p) as [x|]; simpl.
    + rewrite option_guard_False by done. simpl.
      destruct (rec !! p); simpl; [|done].
      by rewrite option_guard_True by done.
    + destruct (rec !! p); simpl; [|done].
      by rewrite option_guard_True by done.
Qed.

Lemma timestamps_hook_eq st : timestamps_hook st = (Ok tt, timestamped st).
Proof.
  unfold timestamps_hook, timestamped, mbind, M_bind, read, Date_now. simpl.
  destruct (isNew (this st)); [|by destruct (anyModified (this st))].
  by destruct (bool_decide (fields (this st) !! "createdAt" = None)).
Qed.

Lemma hash_password_hook_eq st :
  hash_password_hook st =
  if isModified "password" (this st) then
    match bcrypt_hash (held "password" st) 13 (salt_at st) with
    | inr digest =>
        (Ok tt,
         with_this (assign "passwordConfirm" None
                      (assign "password" (Some (Str digest)) (this st)))
           (with_drawn (drawn st + 16) st))
    | inl e => (Throw e, st)
    end
  else (Ok tt, st).
Proof.
  unfold hash_password_hook, mbind, M_bind, read. simpl.
  destruct (isModified "password" (this st)); [|done].
  unfold hash, randomBytes, held, salt_at. simpl.
  destruct (bcrypt_hash _ 13 _); reflexivity.
Qed.

Lemma password_changed_hook_eq st :
  password_changed_hook st =
  if negb (isNew (this st)) && isModified "password" (this st) then
    (Ok tt,
     with_this (assign "passwordChangedAt" (Some (Num (clock st - 1000)))
                  (this st)) st)
  else (Ok tt, st).
Proof.
  unfold password_changed_hook, mbind, M_bind, read. simpl.
  by destruct (negb (isNew (this st)) && isModified "password" (this st)).
Qed.

Lemma save_eq v st :
  save v st =
  match (if v then validate st else (Ok tt, st)) with
  | (Throw e, s) => (Throw e, s)
  | (Ok _, s) =>
      match hash_password_hook (timestamped s) with
      | (Throw e, s1) => (Throw e, s1)
      | (Ok _, s1) =>
          match password_changed_hook s1 with
          | (Throw e, s2) => (Throw e, s2)
          | (Ok _, s2) => persist s2
          end
      end
  end.
Proof.
  unfold save, mbind, M_bind. destruct v; simpl.
  - destruct (validate st) as [[[]|e] s]; [|done].
    rewrite timestamps_hook_eq.
    destruct (hash_password_hook _) as [[[]|e] s1]; [|done].
    by destruct (password_changed_hook s1) as [[[]|e] s2].
  - rewrite timestamps_hook_eq.
    destruct (hash_password_hook _) as [[[]|e] s1]; [|done].
    by destruct (password_changed_hook s1) as [[[]|e] s2].
Qed.

Lemma validate_state st r st' : validate st = (r, st') -> st' = st.
Proof.
  unfold validate. destruct (validation_errors _); intros [= _ <-]; done.
Qed.

Lemma persist_eq st :
  persist st =
  if isNew (this st) then
    (Ok tt, with_this (settled (this st)) (with_stored (fields (this st)) st))
  else
    match stored st with
    | Some rec =>
        (Ok tt,
         with_this (settled (this st))
           (with_stored (write_back (modified (this st)) (fields (this st)) rec) st))
    | None => (Throw DocumentNotFoundError, st)
    end.
Proof. reflexivity. Qed.

Lemma not_hook_path p :
  p ∉ hook_paths ->
  p <> "password" /\ p <> "passwordConfirm" /\ p <> "passwordChangedAt".
Proof. unfold hook_paths. rewrite !not_elem_of_cons. tauto. Qed.

Lemma not_timestamp_path p :
  p ∉ timestamp_paths -> p <> "createdAt" /\ p <> "updatedAt".
Proof. unfold timestamp_paths. rewrite !not_elem_of_cons. tauto. Qed.

Lemma framed_refl w st : framed w st st.
Proof. unfold framed; auto 10. Qed.

Lemma framed_trans w1 w2 st1 st2 st3 :
  framed w1 st1 st2 -> framed w2 st2 st3 -> framed (w1 ++ w2) st1 st3.
Proof.
  intros (? & ? & ? & ? & ? & F) (? & ? & ? & ? & ? & G).
  unfold framed. do 5 (split; [congruence|]).
  intros p [Hp1 Hp2]%not_elem_of_app.
  destruct (F p Hp1) as [E1 M1], (G p Hp2) as [E2 M2].
  split; congruence.
Qed.

Lemma isModified_assign p q v d :
  isModified p (assign q v d) = bool_decide (p = q) || isModified p d.
Proof.
  unfold isModified, assign. simpl.
  apply eq_true_iff_eq.
  rewrite orb_true_iff, !bool_decide_eq_true. set_solver.
Qed.

Lemma held_assign p q v d st :
  held p (with_this (assign q v d) st)
  = if bool_decide (p = q) then coerce q <$> v else fields d !! p.
Proof.
  unfold held, assign. simpl. case_bool_decide as E.
  - subst. destruct v; simpl; [apply lookup_insert_eq | apply lookup_delete_eq].
  - destruct v; simpl; [by apply lookup_insert_ne | by apply lookup_delete_ne].
Qed.

(** The timestamps hook writes [createdAt] and [updatedAt] and nothing
    else, and draws no bytes. *)
Lemma timestamped_frame st :
  framed timestamp_paths st (timestamped st) /\
  drawn (timestamped st) = drawn st.
Proof.
  assert (forall v d, isNew (assign "updatedAt" v d) = isNew d) as Hnew by done.
  unfold timestamped.
  destruct (isNew (this st)); [|destruct (anyModified (this st))].
  - destruct (bool_decide (fields (this st) !! "createdAt" = None));
      (split; [|done]); unfold framed; simpl;
      do 4 (split; [done|]);
      rewrite !isModified_assign; (split; [done|]);
      intros p [? ?]%not_timestamp_path;
      rewrite !held_assign, !isModified_assign;
      rewrite !bool_decide_eq_false_2 by done; try done.
    unfold assign. simpl. by rewrite lookup_insert_ne.
  - split; [|done]. unfold framed. simpl. do 4 (split; [done|]).
    rewrite isModified_assign. split; [done|].
    intros p [? ?]%not_timestamp_path.
    rewrite held_assign, isModified_assign.
    by rewrite !bool_decide_eq_false_2.
  - split; [apply framed_refl | done].
Qed.

Lemma timestamped_salt st : salt_at (timestamped st) = salt_at st.
Proof.
  destruct (timestamped_frame st) as [(_ & He & _) Hd].
  unfold salt_at. by rewrite He, Hd.
Qed.

Lemma password_off_timestamps :
  ("password" ∉ timestamp_paths) /\ ("passwordConfirm" ∉ timestamp_paths) /\
  ("passwordChangedAt" ∉ timestamp_paths).
Proof. repeat split; off_paths. Qed.

Lemma timestamped_ready st :
  (hashable st -> hashable (timestamped st)) /\
  (on_record st -> on_record (timestamped st)).
Proof.
  destruct (timestamped_frame st) as [(_ & _ & Hs & Hn & Hm & F) _].
  destruct password_off_timestamps as (Hp & _).
  split.
  - unfold hashable. rewrite Hm. destruct (F _ Hp) as [-> _]. done.
  - unfold on_record. by rewrite Hn, Hs.
Qed.

Lemma hash_password_hook_frame st r st' :
  hash_password_hook st = (r, st') -> framed hook_paths st st'.
Proof.
  rewrite hash_password_hook_eq.
  destruct (isModified "password" (this st)) eqn:Hm.
  - destruct (bcrypt_hash _ _ _) as [e|digest]; intros [= <- <-].
    + apply framed_refl.
    + unfold framed, held. simpl. repeat split; auto.
      * rewrite !isModified_assign, Hm. done.
      * apply not_hook_path in H1 as (? & ? & ?).
        by rewrite lookup_delete_ne, lookup_insert_ne.
      * apply not_hook_path in H1 as (? & ? & ?).
        rewrite !isModified_assign.
        by rewrite !bool_decide_eq_false_2.
  - intros [= <- <-]. apply framed_refl.
Qed.

Lemma password_changed_hook_frame st r st' :
  password_changed_hook st = (r, st') -> framed hook_paths st st'.
Proof.
  rewrite password_changed_hook_eq.
  destruct (negb (isNew (this st)) && isModified "password" (this st)) eqn:Hc;
    intros [= <- <-]; [|apply framed_refl].
  apply andb_true_iff in Hc as [_ Hm].
  unfold framed, held. simpl. repeat split; auto.
  - rewrite isModified_assign, Hm. done.
  - apply not_hook_path in H1 as (? & ? & ?). by rewrite lookup_insert_ne.
  - apply not_hook_path in H1 as (? & ? & ?).
    rewrite isModified_assign. by rewrite bool_decide_eq_false_2.
Qed.


Lemma persist_outcome st r st' :
  persist st = (r, st') ->
  clock st' = clock st /\ entropy st' = entropy st /\
  (forall p, held p st' = held p st) /\
  match r with
  | Throw _ => st' = st
  | Ok _ =>
      isNew (this st') = false /\
      forall p, kept p st' =
                if isNew (this st) || isModified p (this st) then held p st
                else kept p st
  end.
Proof.
  rewrite persist_eq. destruct (isNew (this st)) eqn:Hn.
  - intros [= <- <-]. simpl. auto.
  - destruct (stored st) as [rec|] eqn:Hs; intros [= <- <-]; simpl; [|auto].
    repeat split; auto. intros p. unfold kept, held, isModified. simpl.
    rewrite lookup_write_back, Hs. simpl.
    destruct (decide (p ∈ modified (this st))).
    + by rewrite bool_decide_eq_true_2.
    + by rewrite bool_decide_eq_false_2.
Qed.

(** The hooks of a save, one after the other, write the paths of the
    timestamps and their own, and nothing else. *)
Lemma hooks_frame st r1 s1 r2 s2 :
  hash_password_hook (timestamped st) = (r1, s1) ->
  password_changed_hook s1 = (r2, s2) ->
  framed (timestamp_paths ++ hook_paths) st s1 /\
  framed (timestamp_paths ++ hook_paths) st s2.
Proof.
  intros E1 E2.
  destruct (timestamped_frame st) as [F0 _].
  pose proof (hash_password_hook_frame _ _ _ E1) as F1.
  pose proof (password_changed_hook_frame _ _ _ E2) as F2.
  pose proof (framed_trans _ _ _ _ _ F0 F1) as F01.
  split; [exact F01|].
  destruct F01 as (? & ? & ? & ? & ? & F), F2 as (? & ? & ? & ? & ? & G).
  unfold framed. do 5 (split; [congruence|]).
  intros p Hp. destruct (F p Hp) as [E M].
  apply not_elem_of_app in Hp as [_ Hp].
  destruct (G p Hp) as [E' M']. split; congruence.
Qed.

(** A save leaves the clock and the paths outside the hooks as they are in
    the document; a rejected save writes nothing, an accepted one writes
    each such path that is marked, and all of them for a new document. *)
Lemma save_frame v st r st' :
  save v st = (r, st') ->
  clock st' = clock st /\ entropy st' = entropy st /\
  (forall p, p ∉ timestamp_paths ++ hook_paths -> held p st' = held p st) /\
  match r with
  | Throw _ => stored st' = stored st
  | Ok _ =>
      isNew (this st') = false /\
      forall p, p ∉ timestamp_paths ++ hook_paths ->
        kept p st' =
        if isNew (this st) || isModified p (this st) then held p st
        else kept p st
  end.
Proof.
  rewrite save_eq.
  assert (exists r0, (if v then validate st else (Ok tt, st)) = (r0, st)) as [r0 ->].
  { destruct v; [|eauto]. destruct (validate st) as [r0 s] eqn:E.
    apply validate_state in E as ->. eauto. }
  destruct r0 as [[]|e]; [|intros [= <- <-]; auto 10].
  destruct (hash_password_hook (timestamped st)) as [r1 s1] eqn:E1.
  destruct (password_changed_hook s1) as [r2 s2] eqn:E2.
  destruct (hooks_frame _ _ _ _ _ E1 E2) as [F1 F2].
  destruct r1 as [[]|e].
  2:{ intros [= <- <-]. destruct F1 as (? & ? & ? & _ & _ & F).
      repeat split; auto. intros p Hp. by apply F. }
  destruct F2 as (Hc & He & Hs & Hn & _ & F).
  destruct r2 as [[]|e].
  2:{ intros [= <- <-]. repeat split; auto. intros p Hp. by apply F. }
  intros E3. apply persist_outcome in E3 as (Hc3 & He3 & Hh3 & Hr).
  repeat split; try congruence.
  - intros p Hp. rewrite Hh3. by apply F.
  - destruct r as [[]|e]; [|by rewrite Hr].
    destruct Hr as [Hn3 Hk]. split; [done|].
    intros p Hp. rewrite Hk, Hn. destruct (F p Hp) as [-> ->].
    destruct (isNew (this st) || isModified p (this st)); [done|].
    unfold kept. by rewrite Hs.
Qed.

(** With validation off, a save goes through when a pending change of
    password can be hashed and the record is there. *)
Lemma save_unvalidated_ok st :
  hashable st -> on_record st -> exists st', save false st = (Ok tt, st').
Proof.
  intros Hh Hr. rewrite save_eq.
  destruct (timestamped_ready st) as [Hh0 Hr0].
  specialize (Hh0 Hh). specialize (Hr0 Hr).
  set (s0 := timestamped st) in *. clearbody s0.
  destruct (hash_password_hook s0) as [r1 s1] eqn:E1.
  pose proof (hash_password_hook_frame _ _ _ E1) as F1.
  rewrite hash_password_hook_eq in E1.
  assert (r1 = Ok tt) as ->.
  { destruct (isModified "password" (this s0)) eqn:Hm; [|congruence].
    destruct (Hh0 Hm (salt_at s0)) as [digest Hd].
    rewrite Hd in E1. congruence. }
  destruct (password_changed_hook s1) as [r2 s2] eqn:E2.
  pose proof (password_changed_hook_frame _ _ _ E2) as F2.
  rewrite password_changed_hook_eq in E2.
  assert (r2 = Ok tt) as ->.
  { destruct (negb _ && _); congruence. }
  pose proof (framed_trans _ _ _ _ _ F1 F2) as (_ & _ & Hs & Hn & _).
  rewrite persist_eq, Hn, Hs.
  destruct Hr0 as [-> | [rec ->]]; [eauto|].
  destruct (isNew (this s0)); eauto.
Qed.

End Saving.
(** ** The dealership application *)

Section Application.

Context `{Constants} `{Crypto}.

#[local] Abbreviation status := "dealershipApplicationStatus" (only parsing).

Lemma dealershipApplicationResponse_eq decision st :
  dealershipApplicationResponse decision st =
  if bool_decide (held status st = Some (Str APPROVED)) then
    (Throw (AppError "Cannot modify an already application" 403), st)
  else
    save false (answered decision st).
Proof.
  unfold dealershipApplicationResponse, mbind, M_bind, get, read, held. simpl.
  by destruct (bool_decide _).
Qed.

Lemma revokeDealershipApplication_eq st :
  revokeDealershipApplication st =
  if negb (bool_decide (held status st = Some (Str APPROVED))) then
    (Throw (AppError "Only approved applications can be revoked" 403), st)
  else
    save false (answered (Some REJECTED) st).
Proof.
  unfold revokeDealershipApplication, mbind, M_bind, get, read, held. simpl.
  by destruct (bool_decide _).
Qed.

Lemma status_not_hook_path : status ∉ timestamp_paths ++ hook_paths.
Proof. off_paths. Qed.

(** Assigning the status leaves a pending change of password and the
    record as they are, and the document holds what was assigned. *)
Lemma assigned_status v st :
  held status (answered v st) = Str <$> v /\
  isModified status (this (answered v st)) = true /\
  (hashable st -> hashable (answered v st)) /\
  (on_record st -> on_record (answered v st)) /\
  stored (answered v st) = stored st /\
  clock (answered v st) = clock st.
Proof.
  repeat split.
  - unfold held. simpl. destruct v; simpl.
    + by rewrite lookup_insert_eq.
    + by rewrite lookup_delete_eq.
  - unfold answered. simpl. rewrite isModified_assign. by rewrite bool_decide_eq_true_2.
  - unfold hashable, held. simpl. rewrite isModified_assign.
    rewrite bool_decide_eq_false_2 by done. simpl.
    destruct v; simpl; [by rewrite lookup_insert_ne | by rewrite lookup_delete_ne].
  - done.
Qed.

Lemma existsb_eqb_false (s : string) (l : list string) :
  s ∉ l -> existsb (String.eqb s) l = false.
Proof.
  induction l as [|x l IH]; simpl; [done|].
  rewrite not_elem_of_cons. intros [Hne Hl].
  rewrite IH by done. by apply String.eqb_neq in Hne as ->.
Qed.

(** A status outside the enumeration does not pass the schema. *)
Lemma status_outside_enum (f : gmap string value) s :
  f !! status = Some (Str s) -> s ∉ [APPROVED; PENDING; REJECTED] ->
  validation_errors f <> [].
Proof.
  intros Hf Hs.
  set (msg := enum_message "dealership application status"
                (APPROVED +:+ ", " +:+ PENDING +:+ " and " +:+ REJECTED)).
  assert ((status, msg) ∈ validation_errors f) as Hin.
  { unfold validation_errors. apply list_elem_of_omap.
    eexists (status, _). split.
    - unfold path_checks. do 3 apply list_elem_of_further. apply list_elem_of_here.
    - pose proof (existsb_eqb_false s _ Hs) as E. simpl in E.
      simpl. rewrite Hf. simpl. by rewrite E. }
  intros E. rewrite E in Hin. by apply not_elem_of_nil in Hin.
Qed.

(** C1. On a user whose application is APPROVED, dealershipApplicationResponse
    is rejected with the 403 error whatever decision is asked for, and
    nothing changes: the document and the stored record are the ones before
    the call, so the status is still APPROVED. *)
Theorem approved_application_is_closed (st : state) (decision : option string) :
  held status st = Some (Str APPROVED) ->
  exists e st',
    dealershipApplicationResponse decision st = (Throw e, st') /\
    ForbiddenTransitionError e = true /\
    st' = st /\
    held status st' = Some (Str APPROVED).
Proof.
  intros Happ. rewrite dealershipApplicationResponse_eq.
  rewrite bool_decide_eq_true_2 by done.
  eexists _, _. repeat split; done.
Qed.

(** C2. revokeDealershipApplication goes through exactly on an APPROVED
    application and leaves it REJECTED, in the document and in the stored
    record; on any other status (none, PENDING, REJECTED among them) it is
    rejected with the 403 error and nothing changes.  "Goes through" is for
    a record that is there and a document whose pending change of
    password, if any, can be hashed. *)
Theorem revoke_only_approved (st : state) :
  NoDup [APPROVED; PENDING; REJECTED] ->
  (forall st', revokeDealershipApplication st = (Ok tt, st') ->
     held status st = Some (Str APPROVED) /\
     held status st' = Some (Str REJECTED) /\
     kept status st' = Some (Str REJECTED)) /\
  (held status st = Some (Str APPROVED) -> hashable st -> on_record st ->
     exists st', revokeDealershipApplication st = (Ok tt, st')) /\
  (held status st <> Some (Str APPROVED) ->
     exists e, revokeDealershipApplication st = (Throw e, st) /\
               ForbiddenTransitionError e = true) /\
  (held status st = None \/ held status st = Some (Str PENDING) \/
   held status st = Some (Str REJECTED) ->
     held status st <> Some (Str APPROVED)).
Proof.
  intros Hd. rewrite revokeDealershipApplication_eq.
  pose proof (assigned_status (Some REJECTED) st) as (Hheld & Hmod & Hh & Hr & _).
  split; [|split; [|split]].
  - intros st' Hrun.
    destruct (bool_decide _) eqn:E; [|discriminate]. simpl in Hrun.
    apply bool_decide_eq_true in E. split; [done|].
    apply save_frame in Hrun as (_ & _ & Hf & _ & Hk).
    rewrite Hf, Hk by apply status_not_hook_path.
    by rewrite Hmod, orb_true_r.
  - intros Happ Hhash Hrec. rewrite bool_decide_eq_true_2 by done. simpl.
    apply save_unvalidated_ok; auto.
  - intros Hne. rewrite bool_decide_eq_false_2 by done. simpl. eauto.
  - apply NoDup_cons in Hd as [Hd _].
    rewrite !not_elem_of_cons in Hd. destruct Hd as (? & ? & _).
    intros [E | [E | E]]; rewrite E; congruence.
Qed.

(** C10. On any status but APPROVED (none included) and for any argument,
    dealershipApplicationResponse goes through and the argument is what
    the document and the stored record then hold as the status; validation
    does not run, and an argument outside the three statuses leaves a
    document that would not pass it.  "Goes through" as for C2. *)
Theorem response_stores_any_status (st : state) (decision : option string) :
  held status st <> Some (Str APPROVED) -> hashable st -> on_record st ->
  exists st',
    dealershipApplicationResponse decision st = (Ok tt, st') /\
    held status st' = Str <$> decision /\
    kept status st' = Str <$> decision /\
    (forall s, decision = Some s -> s ∉ [APPROVED; PENDING; REJECTED] ->
       validation_errors (fields (this st')) <> []).
Proof.
  intros Hne Hhash Hrec. rewrite dealershipApplicationResponse_eq.
  rewrite bool_decide_eq_false_2 by done.
  pose proof (assigned_status decision st) as (Hheld & Hmod & Hh & Hr & _).
  destruct (save_unvalidated_ok _ (Hh Hhash) (Hr Hrec)) as [st' Hsave].
  exists st'. split; [done|].
  apply save_frame in Hsave as (_ & _ & Hf & _ & Hk).
  assert (held status st' = Str <$> decision) as Hst.
  { rewrite Hf by apply status_not_hook_path. done. }
  split; [done|]. split.
  - rewrite Hk by apply status_not_hook_path.
    by rewrite Hmod, orb_true_r.
  - intros s -> Hs. by apply (status_outside_enum _ s).
Qed.

(** What saving an answer leaves as the status. *)
Lemma answered_save d st r st' :
  save false (answered d st) = (r, st') ->
  held status st' = Str <$> d /\
  match r with
  | Ok _ => kept status st' = Str <$> d
  | Throw _ => kept status st' = kept status st
  end.
Proof.
  intros Hsave.
  pose proof (assigned_status d st) as (Hheld & Hmod & _ & _ & Hs & _).
  apply save_frame in Hsave as (_ & _ & Hf & Hr).
  split; [by rewrite Hf by apply status_not_hook_path|].
  destruct r as [[]|e].
  - destruct Hr as [_ Hk]. rewrite Hk by apply status_not_hook_path.
    by rewrite Hmod, orb_true_r.
  - unfold kept. by rewrite Hr, Hs.
Qed.

(** One call with an admin's decision: the status stays, or it becomes
    that decision. *)
Lemma perform_step c st :
  decided c ->
  (forall f : state -> option value, f = held status \/ f = kept status ->
     f (perform c st).2 = f st \/
     f (perform c st).2 = Some (Str APPROVED) \/
     f (perform c st).2 = Some (Str REJECTED)).
Proof.
  intros Hc f Hf.
  assert (forall d, is_decision d -> forall r st',
            save false (answered d st) = (r, st') ->
            f st' = f st \/ f st' = Some (Str APPROVED) \/
            f st' = Some (Str REJECTED)) as Hsave.
  { intros d Hd r st' E. apply answered_save in E as [Hheld Hkept].
    destruct Hf as [-> | ->].
    - right. rewrite Hheld. by destruct Hd as [-> | ->]; auto.
    - destruct r as [[]|e]; [|by left].
      right. rewrite Hkept. by destruct Hd as [-> | ->]; auto. }
  destruct c as [d|]; simpl in *.
  - rewrite dealershipApplicationResponse_eq.
    destruct (bool_decide _); simpl; [by left|].
    destruct (save false (answered d st)) as [r st'] eqn:E. simpl. eauto.
  - rewrite revokeDealershipApplication_eq.
    destruct (negb (bool_decide _)); simpl; [by left|].
    destruct (save false (answered (Some REJECTED) st)) as [r st'] eqn:E.
    simpl. eapply Hsave; [|done]. by right.
Qed.

(** C3, as amended.  A dealershipApplicationResponse that returns without an
    error was made on a status other than APPROVED and leaves, in the
    document and in the stored record, the decision it was given: APPROVED
    or REJECTED when the decision is one of the two.  And no run of
    revocations and of responses with such decisions brings the status to
    PENDING. *)
Theorem decisions_never_reopen :
  NoDup [APPROVED; PENDING; REJECTED] ->
  (forall st decision st',
     dealershipApplicationResponse decision st = (Ok tt, st') ->
     held status st <> Some (Str APPROVED) /\
     held status st' = Str <$> decision /\
     kept status st' = Str <$> decision /\
     (is_decision decision ->
        held status st' = Some (Str APPROVED) \/
        held status st' = Some (Str REJECTED))) /\
  (forall cs st, Forall decided cs ->
     (held status st <> Some (Str PENDING) ->
        held status (perform_all cs st) <> Some (Str PENDING)) /\
     (kept status st <> Some (Str PENDING) ->
        kept status (perform_all cs st) <> Some (Str PENDING))).
Proof.
  intros Hd.
  assert (APPROVED <> PENDING /\ REJECTED <> PENDING) as [Hap Hrp].
  { apply NoDup_cons in Hd as [Ha Hd]. apply NoDup_cons in Hd as [Hp _].
    rewrite !not_elem_of_cons in Ha, Hp. split; [tauto|].
    intros E. destruct Hp as [Hp _]. by apply Hp. }
  split.
  - intros st decision st'. rewrite dealershipApplicationResponse_eq.
    destruct (bool_decide _) eqn:E; [discriminate|].
    apply bool_decide_eq_false in E. intros Hsave.
    apply answered_save in Hsave as [Hheld Hkept].
    repeat split; auto.
    rewrite Hheld. intros [-> | ->]; auto.
  - intros cs. induction cs as [|c cs IH]; intros st Hcs; simpl; [done|].
    apply Forall_cons in Hcs as [Hc Hcs].
    specialize (IH (perform c st).2 Hcs) as [IHh IHk].
    pose proof (perform_step c st Hc) as Hstep.
    split; intros Hst.
    + apply IHh. destruct (Hstep (held status)) as [E | [E | E]];
        [by left | | |]; rewrite E; congruence.
    + apply IHk. destruct (Hstep (kept status)) as [E | [E | E]];
        [by right | | |]; rewrite E; congruence.
Qed.

End Application.

(** ** Passwords *)

Section Passwords.

Context `{Constants} `{Crypto}.

(** What the timestamps hook leaves of a path that is not its own, and of
    the record. *)
Lemma timestamped_path st p :
  p ∉ timestamp_paths ->
  held p (timestamped st) = held p st /\
  isModified p (this (timestamped st)) = isModified p (this st).
Proof. destruct (timestamped_frame st) as [(_ & _ & _ & _ & _ & F) _]. apply F. Qed.

Lemma timestamped_state st :
  clock (timestamped st) = clock st /\ stored (timestamped st) = stored st /\
  isNew (this (timestamped st)) = isNew (this st) /\
  drawn (timestamped st) = drawn st /\
  isModified "password" (this (timestamped st)) = isModified "password" (this st) /\
  forall p, kept p (timestamped st) = kept p st.
Proof.
  destruct (timestamped_frame st) as [(Hc & _ & Hs & Hn & Hm & _) Hd].
  repeat split; auto. intros p. unfold kept. by rewrite Hs.
Qed.

(** The document the hooks hand to the write, when they let it through:
    [s0] is what the timestamps hook leaves. *)
Lemma save_ok_inv v st st' :
  save v st = (Ok tt, st') ->
  exists s0 s2, s0 = timestamped st /\ persist s2 = (Ok tt, st') /\
    ((isModified "password" (this st) = false /\ s2 = s0) \/
     (isModified "password" (this st) = true /\
      exists digest,
        bcrypt_hash (held "password" st) 13 (salt_at st) = inr digest /\
        s2 = let s1 := with_this
                         (assign "passwordConfirm" None
                            (assign "password" (Some (Str digest)) (this s0)))
                         (with_drawn (drawn st + 16) s0) in
             if isNew (this st) then s1
             else with_this
                    (assign "passwordChangedAt" (Some (Num (clock st - 1000)))
                       (this s1)) s1)).
Proof.
  rewrite save_eq.
  assert (exists r0, (if v then validate st else (Ok tt, st)) = (r0, st)) as [r0 ->].
  { destruct v; [|eauto]. destruct (validate st) as [r0 s] eqn:E.
    apply validate_state in E as ->. eauto. }
  destruct r0 as [[]|e]; [|discriminate].
  destruct (timestamped_state st) as (Hc & _ & Hn & Hd & Hm & _).
  destruct password_off_timestamps as (Hp & _).
  destruct (timestamped_path st "password" Hp) as [Hh _].
  pose proof (timestamped_salt st) as Hsalt.
  assert (exists s0, s0 = timestamped st) as [s0 Hs0] by eauto.
  rewrite <- Hs0 in *.
  rewrite hash_password_hook_eq, Hm, Hh, Hsalt.
  destruct (isModified "password" (this st)) eqn:Hmod.
  - destruct (bcrypt_hash _ _ _) as [e|digest] eqn:Hb; [discriminate|].
    rewrite password_changed_hook_eq. simpl.
    rewrite !isModified_assign, Hm, Hn, Hd, Hc. simpl.
    destruct (isNew (this st)) eqn:Hnew; simpl; intros Hper;
      exists s0; eexists; (split; [reflexivity|]); (split; [exact Hper|]);
      right; split; auto; exists digest; split; auto.
  - rewrite password_changed_hook_eq, Hm, andb_false_r.
    intros Hper. exists s0, s0. auto.
Qed.

(** The facts about what the timestamps hook leaves that the proofs about
    another path [p] need. *)
Lemma timestamped_facts st p s0 :
  s0 = timestamped st -> p ∉ timestamp_paths ->
  held p s0 = held p st /\ isModified p (this s0) = isModified p (this st) /\
  kept p s0 = kept p st /\ isNew (this s0) = isNew (this st) /\
  clock s0 = clock st /\ drawn s0 = drawn st.
Proof.
  intros -> Hp. destruct (timestamped_path st p Hp) as [Hh Hm].
  destruct (timestamped_state st) as (Hc & _ & Hn & Hd & _ & Hk).
  repeat split; auto.
Qed.

(** What [new User(draft)] holds at a path of the schema, [role] apart. *)
Lemma filled_spec (draft : gmap string value) (l : list (string * schema_type)) :
  isNew (filled draft l) = true /\
  forall p,
    fields (filled draft l) !! p
      = (if bool_decide (p ∈ l.*1) then coerce p <$> draft !! p else None) /\
    isModified p (filled draft l)
      = bool_decide (p ∈ l.*1) && bool_decide (is_Some (draft !! p)).
Proof.
  induction l as [|[q t] l [IHn IH]].
  - split; [done|]. intros p. split; [apply lookup_empty|].
    unfold isModified. simpl.
    by rewrite bool_decide_eq_false_2 by apply not_elem_of_empty.
  - change (filled draft ((q, t) :: l)) with
      (match draft !! q with
       | Some v => assign q (Some v) (filled draft l)
       | None => filled draft l
       end).
    assert (forall p, p <> q ->
              bool_decide (p ∈ ((q, t) :: l).*1) = bool_decide (p ∈ l.*1)) as Hne.
    { intros p Hp. apply bool_decide_ext. simpl. rewrite elem_of_cons. tauto. }
    assert (bool_decide (q ∈ ((q, t) :: l).*1) = true) as Heq.
    { apply bool_decide_eq_true_2. simpl. apply list_elem_of_here. }
    destruct (draft !! q) as [x|] eqn:Hq.
    + split; [done|]. intros p. destruct (IH p) as [IHf IHm].
      rewrite isModified_assign. unfold assign at 1. simpl fields.
      destruct (decide (p = q)) as [->|Hp].
      * rewrite lookup_insert_eq, Hq, Heq.
        rewrite !bool_decide_eq_true_2; eauto.
      * rewrite lookup_insert_ne by done. rewrite IHf, IHm, (Hne p Hp).
        by rewrite (bool_decide_eq_false_2 (p = q)) by done.
    + split; [done|]. intros p. destruct (IH p) as [IHf IHm].
      rewrite IHf, IHm. destruct (decide (p = q)) as [->|Hp].
      * rewrite Hq, Heq. simpl.
        rewrite andb_false_r. split; [by case_bool_decide | done].
      * by rewrite (Hne p Hp).
Qed.

Lemma construct_spec (draft : gmap string value) p :
  p ∈ schema.*1 -> p <> "role" ->
  isNew (construct draft) = true /\
  fields (construct draft) !! p = coerce p <$> draft !! p /\
  isModified p (construct draft) = bool_decide (is_Some (draft !! p)).
Proof.
  intros Hp Hr.
  pose proof (filled_spec draft schema) as [Hn Hf].
  destruct (Hf p) as [Hfp Hmp].
  rewrite bool_decide_eq_true_2 in Hfp, Hmp by exact Hp.
  rewrite andb_true_l in Hmp.
  unfold construct.
  generalize dependent (filled draft schema). intros d Hn Hf Hfp Hmp.
  cbv zeta.
  destruct (fields d !! "role"); [auto|].
  cbn [fields isNew isModified modified].
  rewrite lookup_insert_ne by congruence. auto.
Qed.

Lemma create_eq draft st :
  create draft st = save true (with_this (construct draft) st).
Proof. reflexivity. Qed.

Lemma construct_password draft plain :
  draft !! "password" = Some (Str plain) ->
  isNew (construct draft) = true /\
  fields (construct draft) !! "password" = Some (Str (trim plain)) /\
  isModified "password" (construct draft) = true.
Proof.
  intros Hd.
  destruct (construct_spec draft "password") as (Hn & Hf & Hm).
  { unfold schema. simpl. do 4 apply list_elem_of_further. apply list_elem_of_here. }
  { done. }
  rewrite Hd in Hf, Hm. repeat split; [done..|].
  rewrite Hm. by apply bool_decide_eq_true_2.
Qed.

#[local] Abbreviation stamp := "passwordChangedAt" (only parsing).

(** C5. Whenever a save goes through with the password marked modified,
    creation included, what the stored record and the document then hold
    as the password is the digest bcrypt gave for it at cost 13 (passed
    through the path's trim setter, like every assignment to it), and
    neither holds a passwordConfirm.  So the stored password is the
    plaintext only if bcrypt handed the plaintext back. *)
Theorem password_is_stored_hashed :
  (forall v st st',
     save v st = (Ok tt, st') ->
     isModified "password" (this st) = true ->
     exists digest,
       bcrypt_hash (held "password" st) 13 (salt_at st) = inr digest /\
       kept "password" st' = Some (Str (trim digest)) /\
       kept "passwordConfirm" st' = None /\
       held "password" st' = Some (Str (trim digest)) /\
       held "passwordConfirm" st' = None /\
       (forall plain,
          held "password" st = Some (Str plain) ->
          kept "password" st' = Some (Str plain) -> trim digest = plain)) /\
  (forall draft plain st st',
     draft !! "password" = Some (Str plain) ->
     create draft st = (Ok tt, st') ->
     exists digest,
       bcrypt_hash (Some (Str (trim plain))) 13 (salt_at st) = inr digest /\
       kept "password" st' = Some (Str (trim digest)) /\
       kept "passwordConfirm" st' = None).
Proof.
  assert (forall v st st',
     save v st = (Ok tt, st') ->
     isModified "password" (this st) = true ->
     exists digest,
       bcrypt_hash (held "password" st) 13 (salt_at st) = inr digest /\
       kept "password" st' = Some (Str (trim digest)) /\
       kept "passwordConfirm" st' = None /\
       held "password" st' = Some (Str (trim digest)) /\
       held "passwordConfirm" st' = None) as Hsave.
  { intros v st st' Hs Hm.
    apply save_ok_inv in Hs
      as (s0 & s2 & _ & Hp & [[Hf _] | (_ & digest & Hd & ->)]);
      [congruence|].
    exists digest. split; [done|].
    apply persist_outcome in Hp as (_ & _ & Hh & _ & Hk).
    rewrite !Hk, !Hh. cbv zeta.
    destruct (isNew (this st)); unfold held; simpl;
      rewrite ?isModified_assign, ?Hm; simpl; rewrite ?orb_true_r;
      rewrite ?lookup_insert_ne by done;
      rewrite ?lookup_delete_eq;
      rewrite ?lookup_delete_ne by done;
      rewrite ?lookup_insert_eq; auto. }
  split.
  - intros v st st' Hs Hm.
    destruct (Hsave v st st' Hs Hm) as (digest & Hd & Hk & Hkc & Hh & Hhc).
    exists digest. repeat split; auto. congruence.
  - intros draft plain st st' Hd. rewrite create_eq. intros Hs.
    destruct (construct_password draft plain Hd) as (_ & Hf & Hm).
    generalize dependent (construct draft). intros d Hs Hf Hm.
    destruct (Hsave _ _ _ Hs Hm) as (digest & Hb & Hk & Hkc & _).
    exists digest. unfold held in Hb. simpl in Hb. rewrite Hf in Hb. auto.
Qed.

(** C8. A save that goes through stamps passwordChangedAt when, and only
    when, the password is marked modified on a document that is not new:
    the stamp is the clock less 1000 ms, so strictly before now, in the
    document and in the stored record.  Any other save leaves the path as
    the document has it and stores it under the rule of every path: a new
    document's value, a marked value, else what was stored.  In particular
    creating a user from a draft without the path stores none. *)
Theorem password_change_is_stamped :
  (forall v st st',
     save v st = (Ok tt, st') ->
     if negb (isNew (this st)) && isModified "password" (this st) then
       held stamp st' = Some (Date (clock st - 1000)) /\
       kept stamp st' = Some (Date (clock st - 1000)) /\
       (clock st - 1000 < clock st)%Z
     else
       held stamp st' = held stamp st /\
       kept stamp st' =
         if isNew (this st) || isModified stamp (this st) then held stamp st
         else kept stamp st) /\
  (forall draft st st',
     create draft st = (Ok tt, st') ->
     draft !! stamp = None ->
     held stamp st' = None /\ kept stamp st' = None).
Proof.
  assert (forall v st st',
     save v st = (Ok tt, st') ->
     if negb (isNew (this st)) && isModified "password" (this st) then
       held stamp st' = Some (Date (clock st - 1000)) /\
       kept stamp st' = Some (Date (clock st - 1000)) /\
       (clock st - 1000 < clock st)%Z
     else
       held stamp st' = held stamp st /\
       kept stamp st' =
         if isNew (this st) || isModified stamp (this st) then held stamp st
         else kept stamp st) as Hsave.
  { intros v st st' Hs.
    assert (stamp ∉ timestamp_paths) as Hoff by off_paths.
    apply save_ok_inv in Hs as (s0 & s2 & Hs0 & Hp & Hcase).
    destruct (timestamped_facts st stamp s0 Hs0 Hoff)
      as (Hh0 & Hm0 & Hk0 & Hn0 & _).
    clear Hs0.
    destruct Hcase as [[Hm ->] | (Hm & digest & Hd & ->)];
      apply persist_outcome in Hp as (_ & _ & Hh & _ & Hk);
      rewrite !Hk, !Hh, ?Hm, ?andb_false_r.
    { by rewrite Hn0, Hm0, Hh0, Hk0. }
    cbv zeta. destruct (isNew (this st)) eqn:Hn; simpl.
    - rewrite Hn0. simpl. unfold held in *. simpl.
      rewrite lookup_delete_ne, lookup_insert_ne by done. done.
    - rewrite !isModified_assign. simpl. rewrite orb_true_r.
      unfold held. simpl. rewrite lookup_insert_eq.
      repeat split; auto. lia. }
  split; [exact Hsave|].
  intros draft st st' Hs Hd. rewrite create_eq in Hs.
  destruct (construct_spec draft stamp) as (Hn & Hf & _).
  { unfold schema. simpl. do 10 apply list_elem_of_further. apply list_elem_of_here. }
  { done. }
  rewrite Hd in Hf.
  generalize dependent (construct draft). intros d Hs Hn Hf.
  apply Hsave in Hs. simpl in Hs. rewrite Hn in Hs. simpl in Hs.
  unfold held in Hs. simpl in Hs. rewrite Hf in Hs. done.
Qed.

End Passwords.

(** ** The account of a save: what the record holds after it *)

Section Account.

Context `{Constants} `{Crypto}.

Lemma type_of_timestamps :
  type_of "createdAt" = Some TDate /\ type_of "updatedAt" = Some TDate.
Proof. by vm_compute. Qed.

Lemma coerce_updatedAt v : coerce "updatedAt" v = cast TDate v.
Proof.
  unfold coerce. rewrite (proj2 type_of_timestamps). by destruct v.
Qed.

Lemma coerce_date p t : type_of p = Some TDate -> coerce p (Date t) = Date t.
Proof. unfold coerce. by intros ->. Qed.

Lemma anyModified_assign p v d : anyModified (assign p v d) = true.
Proof.
  unfold anyModified, assign. simpl. apply negb_true_iff, bool_decide_eq_false_2.
  set_solver.
Qed.

Lemma anyModified_false d : anyModified d = false -> forall p, isModified p d = false.
Proof.
  unfold anyModified, isModified. intros E%negb_false_iff%bool_decide_eq_true p.
  rewrite E. apply bool_decide_eq_false_2, not_elem_of_empty.
Qed.

Lemma isModified_any p d : isModified p d = true -> anyModified d = true.
Proof.
  intros Hp. destruct (anyModified d) eqn:E; [done|].
  by rewrite (anyModified_false d E p) in Hp.
Qed.

Lemma fields_assign_eq p v d : fields (assign p v d) !! p = coerce p <$> v.
Proof.
  unfold assign. simpl.
  destruct v; simpl; [apply lookup_insert_eq | apply lookup_delete_eq].
Qed.

Lemma fields_assign_ne p q v d :
  p <> q -> fields (assign q v d) !! p = fields d !! p.
Proof.
  intros Hne. unfold assign. simpl.
  destruct v; simpl; [by apply lookup_insert_ne | by apply lookup_delete_ne].
Qed.

(** What the timestamps hook leaves at its two paths. *)
Lemma timestamped_stamps st :
  if isNew (this st) then
    held "createdAt" (timestamped st)
      = Some (default (Date (clock st)) (held "createdAt" st)) /\
    held "updatedAt" (timestamped st)
      = cast TDate <$> held "createdAt" (timestamped st)
  else
    held "createdAt" (timestamped st) = held "createdAt" st /\
    isModified "createdAt" (this (timestamped st))
      = isModified "createdAt" (this st) /\
    if anyModified (this st) then
      held "updatedAt" (timestamped st) = Some (Date (clock st)) /\
      isModified "updatedAt" (this (timestamped st)) = true
    else timestamped st = st.
Proof.
  destruct type_of_timestamps as [Hc Hu].
  unfold timestamped, held.
  destruct (isNew (this st)); [|destruct (anyModified (this st))].
  - case_bool_decide as E; cbn [this with_this];
      repeat (rewrite fields_assign_eq
              || rewrite (fields_assign_ne "createdAt" "updatedAt") by done).
    + rewrite E. simpl. by rewrite coerce_updatedAt, (coerce_date _ _ Hc).
    + destruct (fields (this st) !! "createdAt") as [x|] eqn:Ex; [|done].
      simpl. by rewrite coerce_updatedAt.
  - cbn [this with_this].
    rewrite fields_assign_eq, fields_assign_ne, isModified_assign by done.
    simpl. rewrite (coerce_date _ _ Hu).
    by rewrite isModified_assign.
  - done.
Qed.

(** The state a save hands to the write differs from what the timestamps
    hook leaves on the paths of the two other hooks only. *)
Lemma save_ok_hooks v st st' :
  save v st = (Ok tt, st') ->
  exists s0 s2, s0 = timestamped st /\ persist s2 = (Ok tt, st') /\
    framed hook_paths s0 s2.
Proof.
  rewrite save_eq.
  assert (exists r0, (if v then validate st else (Ok tt, st)) = (r0, st)) as [r0 ->].
  { destruct v; [|eauto]. destruct (validate st) as [r0 s] eqn:E.
    apply validate_state in E as ->. eauto. }
  destruct r0 as [[]|e]; [|discriminate].
  destruct (hash_password_hook (timestamped st)) as [[[]|e] s1] eqn:E1;
    [|discriminate].
  destruct (password_changed_hook s1) as [[[]|e] s2] eqn:E2; [|discriminate].
  intros Hp. exists (timestamped st), s2. split; [done|]. split; [done|].
  pose proof (hash_password_hook_frame _ _ _ E1) as F1.
  pose proof (password_changed_hook_frame _ _ _ E2) as F2.
  destruct F1 as (? & ? & ? & ? & ? & F), F2 as (? & ? & ? & ? & ? & G).
  unfold framed. do 5 (split; [congruence|]).
  intros p Hp'. destruct (F p Hp') as [E M], (G p Hp') as [E' M'].
  split; congruence.
Qed.

(** The two timestamps after a save that went through. *)
Lemma save_stamps v st st' :
  save v st = (Ok tt, st') ->
  if isNew (this st) then
    held "createdAt" st'
      = Some (default (Date (clock st)) (held "createdAt" st)) /\
    held "updatedAt" st' = cast TDate <$> held "createdAt" st' /\
    kept "createdAt" st' = held "createdAt" st' /\
    kept "updatedAt" st' = held "updatedAt" st'
  else
    held "createdAt" st' = held "createdAt" st /\
    kept "createdAt" st' = carried "createdAt" st /\
    if anyModified (this st) then
      held "updatedAt" st' = Some (Date (clock st)) /\
      kept "updatedAt" st' = Some (Date (clock st))
    else
      held "updatedAt" st' = held "updatedAt" st /\
      kept "updatedAt" st' = kept "updatedAt" st.
Proof.
  intros Hs. apply save_ok_hooks in Hs as (s0 & s2 & Hs0 & Hp & F).
  pose proof (timestamped_stamps st) as Hst.
  destruct (timestamped_state st) as (_ & _ & Hn0 & _ & _ & Hk0).
  rewrite <- Hs0 in *. clear Hs0.
  destruct F as (_ & _ & Hs & Hn & _ & F).
  assert (forall p, p ∈ timestamp_paths ->
            held p st' = held p s0 /\
            kept p st' = if isNew (this s0) || isModified p (this s0)
                         then held p s0 else kept p s0) as Hpath.
  { intros p Hin.
    assert (p ∉ hook_paths) as Hoff.
    { revert Hin. unfold timestamp_paths. rewrite !elem_of_cons.
      intros [-> | [-> | ?%not_elem_of_nil]]; [off_paths | off_paths | done]. }
    apply persist_outcome in Hp as (_ & _ & Hh & _ & Hk).
    destruct (F p Hoff) as [Eh Em].
    rewrite Hk, Hh, Hn, Em, Eh. split; [done|].
    unfold kept. by rewrite Hs. }
  destruct (Hpath "createdAt") as [Hhc Hkc]; [unfold timestamp_paths; in_list|].
  destruct (Hpath "updatedAt") as [Hhu Hku]; [unfold timestamp_paths; in_list|].
  unfold carried. rewrite Hn0 in Hkc, Hku. clear Hpath.
  destruct (isNew (this st)) eqn:Hnew.
  - destruct Hst as [Hc Hu]. simpl in Hkc, Hku.
    rewrite Hkc, Hku, Hhc, Hhu. by rewrite Hu, Hc.
  - destruct Hst as (Hc & Hmc & Hu). simpl in Hkc, Hku.
    rewrite Hkc, Hhc, Hmc, Hc, Hk0. do 2 (split; [done|]).
    destruct (anyModified (this st)) eqn:Hany.
    + destruct Hu as [Hu Hmu]. rewrite Hku, Hhu, Hmu, Hu. done.
    + subst s0. rewrite Hku, Hhu.
      by rewrite (anyModified_false _ Hany).
Qed.

(** The three paths of the hooks after a save that went through. *)
Lemma save_hooked v st st' :
  save v st = (Ok tt, st') ->
  if isModified "password" (this st) then
    exists digest,
      bcrypt_hash (held "password" st) 13 (salt_at st) = inr digest /\
      held "password" st' = Some (Str (trim digest)) /\
      kept "password" st' = Some (Str (trim digest)) /\
      held "passwordConfirm" st' = None /\
      kept "passwordConfirm" st' = None /\
      held "passwordChangedAt" st' =
        (if isNew (this st) then held "passwordChangedAt" st
         else Some (Date (clock st - 1000))) /\
      kept "passwordChangedAt" st' = held "passwordChangedAt" st' /\
      drawn st' = drawn st + 16
  else
    (forall p, p ∈ hook_paths ->
       held p st' = held p st /\ kept p st' = carried p st) /\
    drawn st' = drawn st.
Proof.
  intros Hs.
  apply save_ok_inv in Hs as (s0 & s2 & Hs0 & Hp & Hcase).
  destruct password_off_timestamps as (Hp1 & Hp2 & Hp3).
  destruct (timestamped_facts st _ s0 Hs0 Hp1) as (Hh1 & Hm1 & Hk1 & Hn0 & _ & Hd0).
  destruct (timestamped_facts st _ s0 Hs0 Hp2) as (Hh2 & Hm2 & Hk2 & _).
  destruct (timestamped_facts st _ s0 Hs0 Hp3) as (Hh3 & Hm3 & Hk3 & _).
  clear Hs0.
  destruct Hcase as [[Hm ->] | (Hm & digest & Hd & ->)]; rewrite Hm.
  - assert (drawn st' = drawn s0) as ->.
    { rewrite persist_eq in Hp. destruct (isNew (this s0)).
      - by injection Hp as <-.
      - destruct (stored s0); [|discriminate]. by injection Hp as <-. }
    split; [|done].
    apply persist_outcome in Hp as (_ & _ & Hh & _ & Hk).
    intros p. unfold hook_paths, carried. rewrite !elem_of_cons.
    intros [-> | [-> | [-> | ?%not_elem_of_nil]]]; try done;
      rewrite Hk, Hh, Hn0, ?Hh1, ?Hm1, ?Hk1, ?Hh2, ?Hm2, ?Hk2, ?Hh3, ?Hm3, ?Hk3;
      done.
  - exists digest. split; [done|].
    assert (drawn st' = drawn st + 16) as Hdr.
    { cbv zeta in Hp. rewrite persist_eq in Hp.
      destruct (isNew (this st)); simpl in Hp;
        destruct (isNew (this s0)); try (injection Hp as <-; done);
        destruct (stored s0); try discriminate; by injection Hp as <-. }
    apply persist_outcome in Hp as (_ & _ & Hh & _ & Hk).
    rewrite !Hk, !Hh. cbv zeta.
    destruct (isNew (this st)); unfold held in *; simpl;
      rewrite ?isModified_assign, ?Hm; simpl; rewrite ?orb_true_r;
      rewrite ?lookup_insert_ne by done;
      rewrite ?lookup_delete_eq;
      rewrite ?lookup_delete_ne by done;
      rewrite ?lookup_insert_ne by done;
      rewrite ?lookup_insert_eq, ?Hn0; simpl; rewrite ?Hh3;
      repeat split; try done; by rewrite lookup_insert_ne.
Qed.

End Account.
(** ** Password reset tokens *)

Section Tokens.

Context `{Constants} `{Crypto}.

#[local] Abbreviation token := "passwordResetToken" (only parsing).
#[local] Abbreviation expires := "passwordResetTokenExpires" (only parsing).

Lemma generateAndSavePasswordResetToken_eq st :
  generateAndSavePasswordResetToken st =
  match save false (reset_issued st) with
  | (Ok _, st') => (Ok (token_at st), st')
  | (Throw e, st') => (Throw e, st')
  end.
Proof.
  unfold generateAndSavePasswordResetToken, mbind, M_bind. simpl.
  unfold reset_issued, token_at, minutes. simpl.
  by destruct (save false _) as [[[]|e] st'].
Qed.

Lemma to_hex_length bs : String.length (to_hex bs) = 2 * length bs.
Proof. induction bs as [|b bs IH]; simpl; [done|]. rewrite IH. lia. Qed.

Lemma token_at_length st : String.length (token_at st) = 64.
Proof.
  unfold token_at. by rewrite to_hex_length, length_map, length_seq.
Qed.

Lemma token_not_hook_path :
  (token ∉ timestamp_paths ++ hook_paths) /\
  (expires ∉ timestamp_paths ++ hook_paths).
Proof. split; off_paths. Qed.

(** What the state handed to [save] holds. *)
Lemma reset_issued_spec st :
  held token (reset_issued st) = Some (Str (sha256_hex (token_at st))) /\
  held expires (reset_issued st) = Some (Str (pretty (clock st + minutes 10)%Z)) /\
  isModified token (this (reset_issued st)) = true /\
  isModified expires (this (reset_issued st)) = true /\
  (hashable st -> hashable (reset_issued st)) /\
  (on_record st -> on_record (reset_issued st)) /\
  stored (reset_issued st) = stored st /\
  isNew (this (reset_issued st)) = isNew (this st) /\
  forall p, p <> token -> p <> expires ->
    held p (reset_issued st) = held p st /\
    isModified p (this (reset_issued st)) = isModified p (this st).
Proof.
  unfold reset_issued, held. simpl. rewrite !isModified_assign. simpl.
  split; [by rewrite lookup_insert_ne, lookup_insert_eq|].
  split; [by rewrite lookup_insert_eq|].
  do 2 (split; [done|]).
  split.
  { unfold hashable, held. simpl. rewrite !isModified_assign. simpl.
    by rewrite !lookup_insert_ne. }
  do 3 (split; [done|]).
  intros p Hp Hq. rewrite !lookup_insert_ne by done.
  rewrite !isModified_assign, !bool_decide_eq_false_2 by done. done.
Qed.

(** The account of the save a method runs after it has assigned the two
    paths [a] and [b]: [st] is the state of the call, [w] the state handed
    to [save]. *)
Lemma issued_account (a b : string) (st w : state) r st' :
  a ∉ timestamp_paths ++ hook_paths -> b ∉ timestamp_paths ++ hook_paths ->
  isModified a (this w) = true -> isModified b (this w) = true ->
  stored w = stored st -> isNew (this w) = isNew (this st) ->
  clock w = clock st ->
  (forall p, p <> a -> p <> b ->
     held p w = held p st /\ isModified p (this w) = isModified p (this st)) ->
  save false w = (r, st') ->
  held a st' = held a w /\ held b st' = held b w /\
  match r with
  | Ok _ =>
      kept a st' = held a w /\ kept b st' = held b w /\
      (forall p, p ∉ hook_paths -> p ∉ timestamp_paths -> p <> a -> p <> b ->
         kept p st' = carried p st) /\
      (isModified "password" (this st) = false ->
         forall p, p ∈ hook_paths -> kept p st' = carried p st) /\
      (isModified "password" (this st) = true ->
         exists hashed,
           bcrypt_hash (held "password" st) 13 (salt_at w) = inr hashed /\
           kept "password" st' = Some (Str (trim hashed)) /\
           kept "passwordConfirm" st' = None /\
           if isNew (this st)
           then kept "passwordChangedAt" st' = held "passwordChangedAt" st
           else exists u, kept "passwordChangedAt" st' = Some (Date u)) /\
      (exists t,
         if isNew (this st) then
           kept "createdAt" st' = Some (default (Date t) (held "createdAt" st)) /\
           (forall u, kept "createdAt" st' = Some (Date u) ->
                      kept "updatedAt" st' = Some (Date u))
         else
           kept "createdAt" st' = carried "createdAt" st /\
           kept "updatedAt" st' = Some (Date t))
  | Throw _ => kept a st' = kept a st /\ kept b st' = kept b st
  end.
Proof.
  intros Ha Hb Hma Hmb Hs Hn Hc Hother Hsave.
  assert (forall p, p <> a -> p <> b -> carried p w = carried p st) as Hcar.
  { intros p Hp1 Hp2. unfold carried, kept.
    destruct (Hother p Hp1 Hp2) as [-> ->]. by rewrite Hn, Hs. }
  assert (forall p, p ∈ timestamp_paths ++ hook_paths -> p <> a /\ p <> b) as Hne.
  { intros p Hp. split; intros ->; contradiction. }
  assert (forall p, p ∈ hook_paths -> p <> a /\ p <> b) as Hne1.
  { intros p Hp. apply Hne, elem_of_app. by right. }
  assert (forall p, p ∈ timestamp_paths -> p <> a /\ p <> b) as Hne2.
  { intros p Hp. apply Hne, elem_of_app. by left. }
  pose proof (save_frame _ _ _ _ Hsave) as (_ & _ & Hf & Hres).
  rewrite !Hf by done. do 2 (split; [done|]).
  destruct r as [[]|e]; [|unfold kept; by rewrite Hres, Hs].
  destruct Hres as [_ Hk].
  rewrite !Hk, Hma, Hmb, !orb_true_r by done. do 2 (split; [done|]).
  pose proof (save_hooked _ _ _ Hsave) as Hhooked.
  pose proof (save_stamps _ _ _ Hsave) as Hstamps.
  destruct (Hne1 "password" ltac:(unfold hook_paths; in_list)) as [Hp1 Hp2].
  destruct (Hother _ Hp1 Hp2) as [Hhp Hmp].
  rewrite Hmp, Hhp, Hn, Hc in Hhooked.
  split; [|split; [|split]].
  - intros p Hp1' Hp2' Hp3 Hp4. rewrite Hk by (apply not_elem_of_app; done).
    by apply Hcar.
  - intros Hm p Hp. rewrite Hm in Hhooked. destruct Hhooked as [Hall _].
    destruct (Hall p Hp) as [_ ->]. destruct (Hne1 p Hp). by apply Hcar.
  - intros Hm. rewrite Hm in Hhooked.
    destruct Hhooked as (hashed & Hd & _ & Hkp & _ & Hkc & Hhs & Hks & _).
    exists hashed. do 3 (split; [done|]). rewrite Hks, Hhs.
    destruct (Hne1 "passwordChangedAt" ltac:(unfold hook_paths; in_list))
      as [Hs1 Hs2].
    destruct (Hother _ Hs1 Hs2) as [-> _].
    destruct (isNew (this st)); eauto.
  - exists (clock st). rewrite Hn, Hc in Hstamps.
    destruct (Hne2 "createdAt" ltac:(unfold timestamp_paths; in_list))
      as [Hc1 Hc2].
    destruct (Hother _ Hc1 Hc2) as [Hhc _].
    destruct (isNew (this st)).
    + destruct Hstamps as (Hhcr & Hhup & Hkcr & Hkup).
      rewrite Hkcr, Hkup, Hhup, Hhcr, Hhc. split; [done|].
      intros u Eu. by rewrite Eu.
    + destruct Hstamps as (_ & Hkcr & Hup).
      rewrite Hkcr, (Hcar _ Hc1 Hc2). split; [done|].
      rewrite (isModified_any a) in Hup by done. by destruct Hup.
Qed.

(** On a document as read from the collection, the record after such a
    save is the record before it with the two paths and [updatedAt]
    written. *)
Lemma issued_record (a b : string) (va vb : value) (st st' : state) rec :
  a <> "updatedAt" -> b <> "updatedAt" ->
  clean st -> stored st = Some rec ->
  kept a st' = Some va -> kept b st' = Some vb ->
  (forall p, p ∉ hook_paths -> p ∉ timestamp_paths -> p <> a -> p <> b ->
     kept p st' = carried p st) ->
  (isModified "password" (this st) = false ->
     forall p, p ∈ hook_paths -> kept p st' = carried p st) ->
  kept "createdAt" st' = carried "createdAt" st ->
  forall t, kept "updatedAt" st' = Some (Date t) ->
  stored st' = Some (<["updatedAt" := Date t]> (<[b := vb]> (<[a := va]> rec))).
Proof.
  intros Hau Hbu [Hn Hm] Hrec Hka Hkb Hframe Hhooks Hcreated t Hup.
  assert (forall p, isModified p (this st) = false) as Hun.
  { intros p. unfold isModified. rewrite Hm.
    apply bool_decide_eq_false_2, not_elem_of_empty. }
  assert (forall p, carried p st = rec !! p) as Hcar.
  { intros p. unfold carried, kept. by rewrite Hn, Hun, Hrec. }
  assert (exists rec', stored st' = Some rec') as [rec' Hrec'].
  { unfold kept in Hup. destruct (stored st'); [eauto|discriminate]. }
  assert (forall p, kept p st' = rec' !! p) as Hkept.
  { intros p. unfold kept. by rewrite Hrec'. }
  rewrite Hkept in Hka, Hkb, Hcreated, Hup.
  rewrite Hrec'. f_equal. apply map_eq. intros p.
  destruct (decide (p = "updatedAt")) as [->|Hp1].
  { by rewrite lookup_insert_eq. }
  rewrite lookup_insert_ne by done.
  destruct (decide (p = b)) as [->|Hp2].
  { by rewrite lookup_insert_eq. }
  rewrite lookup_insert_ne by done.
  destruct (decide (p = a)) as [->|Hp3].
  { by rewrite lookup_insert_eq. }
  rewrite lookup_insert_ne by done.
  destruct (decide (p = "createdAt")) as [->|Hp4].
  { by rewrite Hcreated, Hcar. }
  destruct (decide (p ∈ hook_paths)) as [Hin|Hout].
  { rewrite <- Hkept, (Hhooks (Hun _) p Hin). apply Hcar. }
  rewrite <- Hkept, Hframe, Hcar; try done.
  unfold timestamp_paths. rewrite !not_elem_of_cons.
  repeat split; try done. apply not_elem_of_nil.
Qed.

(** C6. generateAndSavePasswordResetToken gives the caller the raw token,
    64 hex digits of 32 random bytes, and stores its SHA-256 digest with an
    expiry ten minutes after now (a String path: the decimal rendering of
    the timestamp).  The two paths go together: the document gets both,
    and the stored record gets both when the save goes through and keeps
    both as they were when it does not.  What else the record holds after
    the save is accounted for path by path.  A path outside the hooks and
    the timestamps is stored as any save stores it, and so are the three
    paths of the hooks when no change of password is pending; a pending
    password is stored as the digest bcrypt gives for it, with the salt
    drawn after the token, together with no passwordConfirm and its
    passwordChangedAt.  On a document that is not new createdAt is stored
    as any save stores it and updatedAt is a Date, written by this save,
    when the digest is a new one; a new document is stored with the
    createdAt it holds, or else a Date, and with the same as updatedAt.
    For a user read from the collection the record is the one before the
    call with the digest, the expiry and updatedAt written: the raw token
    is stored nowhere.  The save goes through for a record that is there
    and a pending change of password that can be hashed. *)
Theorem reset_token_is_stored_hashed (st : state) :
  let digest := Some (Str (sha256_hex (token_at st))) in
  let expiry := Some (Str (pretty (clock st + minutes 10)%Z)) in
  String.length (token_at st) = 64 /\
  (forall r st',
     generateAndSavePasswordResetToken st = (r, st') ->
     held token st' = digest /\ held expires st' = expiry /\
     match r with
     | Ok raw =>
         raw = token_at st /\
         kept token st' = digest /\ kept expires st' = expiry /\
         (forall p, p ∉ hook_paths -> p ∉ timestamp_paths ->
            p <> token -> p <> expires -> kept p st' = carried p st) /\
         (isModified "password" (this st) = false ->
            forall p, p ∈ hook_paths -> kept p st' = carried p st) /\
         (isModified "password" (this st) = true ->
            exists hashed,
              bcrypt_hash (held "password" st) 13
                (salt_at (with_drawn (drawn st + 32) st)) = inr hashed /\
              kept "password" st' = Some (Str (trim hashed)) /\
              kept "passwordConfirm" st' = None /\
              if isNew (this st)
              then kept "passwordChangedAt" st' = held "passwordChangedAt" st
              else exists u, kept "passwordChangedAt" st' = Some (Date u)) /\
         (exists t,
            if isNew (this st) then
              kept "createdAt" st'
                = Some (default (Date t) (held "createdAt" st)) /\
              (forall u, kept "createdAt" st' = Some (Date u) ->
                         kept "updatedAt" st' = Some (Date u))
            else
              kept "createdAt" st' = carried "createdAt" st /\
              (held token st <> digest ->
                 kept "updatedAt" st' = Some (Date t))) /\
         (clean st -> held token st <> digest -> held expires st <> expiry ->
          forall rec, stored st = Some rec ->
          exists t,
            stored st' =
            Some (<["updatedAt" := Date t]>
                    (<[expires := Str (pretty (clock st + minutes 10)%Z)]>
                       (<[token := Str (sha256_hex (token_at st))]> rec))))
     | Throw _ =>
         kept token st' = kept token st /\ kept expires st' = kept expires st
     end) /\
  (hashable st -> on_record st ->
     exists st', generateAndSavePasswordResetToken st = (Ok (token_at st), st')).
Proof.
  intros digest expiry.
  pose proof (reset_issued_spec st)
    as (Ht & He & Hmt & Hme & Hh & Hr & Hs & Hn & Hother).
  destruct token_not_hook_path as [Hpt Hpe].
  split; [apply token_at_length|]. split.
  - intros r st'. rewrite generateAndSavePasswordResetToken_eq.
    destruct (save false (reset_issued st)) as [r0 s'] eqn:Hsave.
    pose proof (issued_account token expires st _ _ _ Hpt Hpe Hmt Hme Hs Hn
                  eq_refl Hother Hsave) as (Hht & Hhe & Hacc).
    rewrite Ht in Hht. rewrite He in Hhe.
    destruct r0 as [[]|e]; intros [= <- <-]; (do 2 (split; [done|])); [|done].
    destruct Hacc as (Hkt & Hke & Hframe & Hhooks & Hhashed & t & Hstamps).
    rewrite Ht in Hkt. rewrite He in Hke.
    do 6 (split; [done|]). split.
    + exists t. destruct (isNew (this st)); [done|].
      destruct Hstamps as [Hc Hu]. by split.
    + intros Hclean Hfresh _ rec Hrec. exists t.
      destruct Hclean as [Hnew Hmod].
      rewrite Hnew in Hstamps. destruct Hstamps as [Hc Hu].
      apply (issued_record token expires _ _ st); try done.
  - intros Hhash Hrec. rewrite generateAndSavePasswordResetToken_eq.
    destruct (save_unvalidated_ok _ (Hh Hhash) (Hr Hrec)) as [st' ->].
    eauto.
Qed.

End Tokens.
(** ** Tokens issued before a change of password *)

Section Sessions.

#[local] Abbreviation stamp := "passwordChangedAt" (only parsing).

Lemma after_seconds (ms jwtIsa : Z) :
  negb (Qle_bool (Qmake ms 1000) (inject_Z jwtIsa)) = true <->
  (jwtIsa * 1000 < ms)%Z.
Proof.
  rewrite negb_true_iff, <- not_true_iff_false, Qle_bool_iff.
  unfold Qle, inject_Z. simpl. lia.
Qed.

(** C7. passwordChangedAfterJwt is false for a user with no
    passwordChangedAt, and true whenever the issued-at time, in seconds,
    is before the stored passwordChangedAt, in milliseconds (and then
    only). *)
Theorem changed_after_token (d : document) (jwtIsa : Z) :
  (fields d !! stamp = None -> passwordChangedAfterJwt jwtIsa d = false) /\
  (forall ms, fields d !! stamp = Some (Date ms) ->
     (jwtIsa * 1000 < ms)%Z -> passwordChangedAfterJwt jwtIsa d = true) /\
  (forall ms, fields d !! stamp = Some (Date ms) ->
     passwordChangedAfterJwt jwtIsa d = true -> (jwtIsa * 1000 < ms)%Z).
Proof.
  unfold passwordChangedAfterJwt. repeat split.
  - by intros ->.
  - intros ms -> Hlt. by apply after_seconds.
  - intros ms ->. apply after_seconds.
Qed.

End Sessions.

(** ** The password policy *)

Section Policy.

Context `{Constants} `{Crypto}.

(** A password the validator turns down is an error of the path. *)
Lemma password_rejected (f : gmap string value) q :
  f !! "password" = Some (Str q) -> password_validator q = false ->
  "password" ∈ (validation_errors f).*1.
Proof.
  intros Hf Hq.
  assert (exists msg, ("password", msg) ∈ validation_errors f) as [msg Hin].
  { unfold validation_errors.
    setoid_rewrite list_elem_of_omap.
    destruct (String.length q =? 0) eqn:Hlen.
    - eexists _, ("password", _). split.
      + unfold path_checks. do 4 apply list_elem_of_further. apply list_elem_of_here.
      + simpl. rewrite Hf. simpl. rewrite Hlen. reflexivity.
    - eexists _, ("password", _). split.
      + unfold path_checks. do 4 apply list_elem_of_further. apply list_elem_of_here.
      + simpl. rewrite Hf. simpl. rewrite Hlen, Hq. reflexivity. }
  apply list_elem_of_fmap. by exists ("password", msg).
Qed.

(** C4, as amended.  The validator accepts a password exactly when it has
    an uppercase letter, one of the symbols !@#$%^&*, a length of 8 to 50,
    and no character other than letters, digits and these symbols.
    create validates the draft's password after the path's trim setter
    has stripped the white space around it, and a password the validator
    then turns down makes it fail with a ValidationError that names the
    path; nothing is stored. *)
Theorem password_policy_enforced :
  (forall s, password_validator s = complexity_policy s && only_allowed s) /\
  (forall draft plain st,
     draft !! "password" = Some (Str plain) ->
     password_validator (trim plain) = false ->
     exists errors st',
       create draft st = (Throw (ValidationError errors), st') /\
       "password" ∈ errors.*1 /\
       stored st' = stored st).
Proof.
  split; [exact password_validator_spec|].
  intros draft plain st Hd Hv. rewrite create_eq, save_eq.
  destruct (construct_password draft plain Hd) as (_ & Hf & _).
  pose proof (password_rejected _ _ Hf Hv) as Hin.
  unfold validate. simpl.
  destruct (validation_errors (fields (construct draft))) as [|e errors] eqn:E.
  - by apply not_elem_of_nil in Hin.
  - eexists _, _. repeat split; done.
Qed.

(** comparePassword hands back whatever bcrypt.compare does, a rejection
    included. *)
Lemma comparePassword_eq plainPassword hashedPassword st :
  comparePassword plainPassword hashedPassword st =
  match bcrypt_compare plainPassword hashedPassword with
  | inl e => (Throw e, st)
  | inr b => (Ok b, st)
  end.
Proof. unfold comparePassword. by destruct (bcrypt_compare _ _). Qed.

(** So it always answers with a boolean exactly when bcrypt.compare never
    rejects. *)
Lemma comparePassword_total :
  (forall p h st, exists b, comparePassword p h st = (Ok b, st)) <->
  (forall p h, exists b, bcrypt_compare p h = inr b).
Proof.
  split.
  - intros Hall p h.
    destruct (Hall p h {| this := {| fields := ∅; isNew := true; modified := ∅ |};
                          stored := None; clock := 0; entropy := fun _ => Byte.x00;
                          drawn := 0 |}) as [b Hb].
    rewrite comparePassword_eq in Hb.
    destruct (bcrypt_compare p h) as [e|b']; [discriminate|].
    exists b'. done.
  - intros Hall p h st. destruct (Hall p h) as [b Hb].
    exists b. by rewrite comparePassword_eq, Hb.
Qed.

End Policy.

(** ** The statements on the sample environment *)

#[local] Existing Instance Sample.constants.
#[local] Existing Instance Sample.crypto.

#[local] Abbreviation status := "dealershipApplicationStatus" (only parsing).

Example password_ok : password_validator "Abcdef1!" = true.
Proof. reflexivity. Qed.

Example password_short : password_validator "Abcde1!" = false.
Proof. reflexivity. Qed.

Example email_ok : email_validator "a@b.com" = true.
Proof. reflexivity. Qed.

Example email_bad : email_validator "a b@b.com" = false.
Proof. reflexivity. Qed.

(** The scenario of the spec: apply, approve, try to reject, revoke. *)
Example approve_reject_revoke :
  let st1 := (dealershipApplicationResponse (Some "APPROVED")
                (Sample.applicant "PENDING")).2 in
  let r2 := dealershipApplicationResponse (Some "REJECTED") st1 in
  let r3 := revokeDealershipApplication r2.2 in
  kept status st1 = Some (Str "APPROVED") /\
  r2.1 = Throw (AppError "Cannot modify an already application" 403) /\
  r3.1 = Ok tt /\ kept status r3.2 = Some (Str "REJECTED").
Proof. vm_compute. repeat split. Qed.

Lemma approved_application_is_closed_witness :
  exists e st',
    dealershipApplicationResponse (Some "REJECTED") (Sample.applicant "APPROVED")
      = (Throw e, st') /\
    ForbiddenTransitionError e = true /\
    st' = Sample.applicant "APPROVED" /\
    held status st' = Some (Str "APPROVED").
Proof.
  assert (held status (Sample.applicant "APPROVED") = Some (Str APPROVED)) as Hst
    by (vm_compute; reflexivity).
  exact (approved_application_is_closed (Sample.applicant "APPROVED")
           (Some "REJECTED") Hst).
Defined.

Lemma sample_statuses_distinct : NoDup [APPROVED; PENDING; REJECTED].
Proof.
  repeat (apply NoDup_cons; split;
          [rewrite ?not_elem_of_cons; repeat split; try done; apply not_elem_of_nil|]).
  apply NoDup_nil. done.
Qed.

Lemma sample_changing_ready s :
  hashable (Sample.changing s) /\ on_record (Sample.changing s).
Proof.
  split.
  - intros _ salt. eexists. reflexivity.
  - right. by eexists.
Qed.

Lemma revoke_only_approved_witness :
  NoDup [APPROVED; PENDING; REJECTED] /\
  (exists st',
     revokeDealershipApplication (Sample.changing "APPROVED") = (Ok tt, st') /\
     kept status st' = Some (Str "REJECTED")) /\
  (exists e,
     revokeDealershipApplication (Sample.applicant "PENDING")
       = (Throw e, Sample.applicant "PENDING") /\
     ForbiddenTransitionError e = true).
Proof.
  split; [exact sample_statuses_distinct|].
  destruct (revoke_only_approved (Sample.changing "APPROVED")
              sample_statuses_distinct) as (Hres & Hok & _ & _).
  destruct (revoke_only_approved (Sample.applicant "PENDING")
              sample_statuses_distinct) as (_ & _ & Hfail & Hne).
  destruct (sample_changing_ready "APPROVED") as [Hh Hr].
  split.
  - destruct Hok as [st' E]; [vm_compute; reflexivity | exact Hh | exact Hr |].
    exists st'. split; [exact E|]. exact (proj2 (proj2 (Hres st' E))).
  - apply Hfail, Hne. right. left. vm_compute. reflexivity.
Defined.

Lemma response_stores_any_status_witness :
  exists st',
    dealershipApplicationResponse (Some "on hold") (Sample.changing "PENDING")
      = (Ok tt, st') /\
    held status st' = Some (Str "on hold") /\
    kept status st' = Some (Str "on hold") /\
    validation_errors (fields (this st')) <> [].
Proof.
  destruct (sample_changing_ready "PENDING") as [Hh Hr].
  assert (held status (Sample.changing "PENDING") <> Some (Str APPROVED)) as Hne.
  { intros E. vm_compute in E. discriminate. }
  destruct (response_stores_any_status (Sample.changing "PENDING")
              (Some "on hold") Hne Hh Hr) as (st' & E & Hheld & Hkept & Hv).
  exists st'. repeat split; [exact E | exact Hheld | exact Hkept |].
  apply (Hv "on hold"); [reflexivity|].
  rewrite !not_elem_of_cons. repeat split; try done. apply not_elem_of_nil.
Defined.

Lemma decisions_never_reopen_witness :
  NoDup [APPROVED; PENDING; REJECTED] /\
  Forall decided Sample.calls /\
  (held status (perform_all Sample.calls (Sample.applicant "REJECTED"))
     <> Some (Str "PENDING")).
Proof.
  split; [exact sample_statuses_distinct|].
  assert (Forall decided Sample.calls) as Hcalls.
  { repeat apply Forall_cons_2; try apply Forall_nil_2; simpl; auto;
      unfold is_decision; auto. }
  split; [exact Hcalls|].
  destruct (decisions_never_reopen sample_statuses_distinct) as [_ Hrun].
  destruct (Hrun Sample.calls (Sample.applicant "REJECTED") Hcalls) as [Hheld _].
  apply Hheld. intros E. vm_compute in E. discriminate.
Defined.

(** C3 as stated fails: a response with the decision PENDING on a rejected
    application returns without an error and reopens it, and a decision
    outside the three statuses is stored just the same. *)
Lemma response_can_reopen :
  let r := dealershipApplicationResponse (Some "PENDING")
             (Sample.applicant "REJECTED") in
  let r' := dealershipApplicationResponse (Some "on hold")
              (Sample.applicant "PENDING") in
  (r.1 = Ok tt /\ held status r.2 = Some (Str "PENDING") /\
   kept status r.2 = Some (Str "PENDING")) /\
  (r'.1 = Ok tt /\ held status r'.2 = Some (Str "on hold") /\
   kept status r'.2 = Some (Str "on hold")).
Proof. vm_compute. repeat split. Qed.

(** C4 as stated fails twice.  A password with an uppercase letter, a
    symbol of the set and ten characters is turned down for a character
    outside the alphabet; and a password of 58 characters, too long for
    the policy, is accepted by create, which validates it trimmed. *)
Lemma policy_misses_alphabet_and_trim :
  (complexity_policy "Abcdefg1!?" = true /\
   password_validator "Abcdefg1!?" = false) /\
  (complexity_policy Sample.padded = false /\
   String.length Sample.padded = 58 /\
   (create (<["password" := Str Sample.padded]> Sample.draft) Sample.nobody).1
     = Ok tt).
Proof. vm_compute. repeat split. Qed.

Lemma password_policy_enforced_witness :
  exists errors st',
    create (<["password" := Str "Abcdefg1!?"]> Sample.draft) Sample.nobody
      = (Throw (ValidationError errors), st') /\
    "password" ∈ errors.*1 /\
    stored st' = stored Sample.nobody.
Proof.
  destruct password_policy_enforced as [_ Hcreate].
  apply (Hcreate _ "Abcdefg1!?"); vm_compute; reflexivity.
Defined.

Lemma password_is_stored_hashed_witness :
  (exists digest,
     bcrypt_hash (Some (Str "Abcdef1!")) 13 (salt_at Sample.nobody) = inr digest /\
     kept "password" (create Sample.draft Sample.nobody).2
       = Some (Str (trim digest)) /\
     kept "passwordConfirm" (create Sample.draft Sample.nobody).2 = None) /\
  (exists digest,
     bcrypt_hash (Some (Str "Zyxwvu9*")) 13 (salt_at (Sample.changing "PENDING"))
       = inr digest /\
     kept "password" (save false (Sample.changing "PENDING")).2
       = Some (Str (trim digest)) /\
     kept "passwordConfirm" (save false (Sample.changing "PENDING")).2 = None).
Proof.
  destruct password_is_stored_hashed as [Hsave Hcreate].
  split.
  - assert (create Sample.draft Sample.nobody
            = (Ok tt, (create Sample.draft Sample.nobody).2)) as E
      by (vm_compute; reflexivity).
    assert (Sample.draft !! "password" = Some (Str "Abcdef1!")) as Hd
      by (vm_compute; reflexivity).
    exact (Hcreate Sample.draft "Abcdef1!" _ _ Hd E).
  - assert (save false (Sample.changing "PENDING")
            = (Ok tt, (save false (Sample.changing "PENDING")).2)) as E
      by (vm_compute; reflexivity).
    assert (isModified "password" (this (Sample.changing "PENDING")) = true) as Hm
      by (vm_compute; reflexivity).
    destruct (Hsave false _ _ E Hm) as (digest & Hb & Hk & Hc & _).
    exists digest. split; [exact Hb|]. split; [exact Hk | exact Hc].
Defined.

Lemma password_change_is_stamped_witness :
  kept "passwordChangedAt" (save false (Sample.changing "PENDING")).2
    = Some (Date 1699999999000) /\
  kept "passwordChangedAt" (create Sample.draft Sample.nobody).2 = None.
Proof.
  destruct password_change_is_stamped as [Hsave Hcreate].
  split.
  - assert (save false (Sample.changing "PENDING")
            = (Ok tt, (save false (Sample.changing "PENDING")).2)) as E
      by (vm_compute; reflexivity).
    pose proof (Hsave false _ _ E) as W.
    assert (negb (isNew (this (Sample.changing "PENDING")))
            && isModified "password" (this (Sample.changing "PENDING")) = true)
      as Hc by (vm_compute; reflexivity).
    rewrite Hc in W. exact (proj1 (proj2 W)).
  - assert (create Sample.draft Sample.nobody
            = (Ok tt, (create Sample.draft Sample.nobody).2)) as E
      by (vm_compute; reflexivity).
    assert (Sample.draft !! "passwordChangedAt" = None) as Hd
      by (vm_compute; reflexivity).
    exact (proj2 (Hcreate Sample.draft _ _ E Hd)).
Defined.

Lemma reset_token_is_stored_hashed_witness :
  exists st',
    generateAndSavePasswordResetToken (Sample.changing "PENDING")
      = (Ok (token_at (Sample.changing "PENDING")), st') /\
    kept "passwordResetToken" st'
      = Some (Str (sha256_hex (token_at (Sample.changing "PENDING")))) /\
    kept "passwordResetTokenExpires" st' = Some (Str "1700000600000").
Proof.
  pose proof (reset_token_is_stored_hashed (Sample.changing "PENDING")) as W.
  cbv zeta in W. destruct W as (_ & Hall & Hok).
  destruct (sample_changing_ready "PENDING") as [Hh Hr].
  destruct (Hok Hh Hr) as [st' E].
  destruct (Hall _ _ E) as (_ & _ & _ & Hk & Hx & _).
  exists st'. split; [exact E|]. split; [exact Hk|].
  rewrite Hx. vm_compute. reflexivity.
Defined.

Lemma changed_after_token_witness :
  passwordChangedAfterJwt 1699999999 Sample.stamped = true /\
  passwordChangedAfterJwt 1699999999 (this (Sample.applicant "PENDING")) = false.
Proof.
  destruct (changed_after_token Sample.stamped 1699999999) as (_ & Hafter & _).
  destruct (changed_after_token (this (Sample.applicant "PENDING")) 1699999999)
    as (Hnever & _).
  split.
  - apply (Hafter 1700000000000%Z); [vm_compute; reflexivity | lia].
  - apply Hnever. vm_compute. reflexivity.
Defined.

(** ** The matcher against what an expression accepts *)

#[local] Remove Hints Sample.constants Sample.crypto : typeclass_instances.

Section Denotation.

(** The continuation-passing matcher finds a match exactly when the input
    splits into a part the expression accepts and a rest the continuation
    accepts. *)
Lemma run_denote r : forall i s k,
  run r i s k = true <->
  exists pre post, s = pre ++ post /\ denote r i pre post /\
                   k (i + length pre) post = true.
Proof.
  induction r as [| |a|a lo hi|r IH|r1 IH1 r2 IH2]; intros i s k; simpl.
  - rewrite andb_true_iff, Nat.eqb_eq. split.
    + intros [-> Hk]. exists [], s. by rewrite Nat.add_0_r.
    + intros (pre & post & -> & [-> ->] & Hk). simpl in Hk. auto.
  - split.
    + destruct s; [|done]. intros Hk. exists [], []. by rewrite Nat.add_0_r.
    + intros (pre & post & -> & [-> ->] & Hk). simpl in *.
      by rewrite Nat.add_0_r in Hk.
  - split.
    + destruct s as [|c t]; [done|]. rewrite andb_true_iff. intros [Hc Hk].
      exists [c], t. simpl. rewrite Nat.add_1_r. eauto.
    + intros (pre & post & -> & (c & -> & Hc) & Hk). simpl in *.
      rewrite Nat.add_1_r in Hk. by rewrite Hc, Hk.
  - rewrite rep_spec. split.
    + intros (n & Hn & Hlo & Hhi & Hall & Hk).
      exists (take n s), (drop n s).
      rewrite take_drop, length_take, Nat.min_l by done. auto 10.
    + intros (pre & post & -> & (Hlo & Hhi & Hall) & Hk).
      exists (length pre). rewrite length_app, take_app_length, drop_app_length.
      repeat split; auto. lia.
  - rewrite andb_true_iff, IH. split.
    + intros [(p & q & -> & Hr & _) Hk]. exists [], (p ++ q).
      rewrite Nat.add_0_r. eauto 10.
    + intros (pre & post & -> & [-> (p & q & -> & Hr)] & Hk). simpl in *.
      rewrite Nat.add_0_r in Hk. eauto 10.
  - rewrite IH1. split.
    + intros (p1 & rest & -> & H1 & Hk). apply IH2 in Hk as (p2 & post & -> & H2 & Hk).
      exists (p1 ++ p2), post. rewrite <- app_assoc, length_app, Nat.add_assoc.
      eauto 10.
    + intros (pre & post & -> & (p1 & p2 & -> & H1 & H2) & Hk).
      exists p1, (p2 ++ post). rewrite <- app_assoc. repeat split; auto.
      apply IH2. exists p2, post. rewrite length_app, Nat.add_assoc in Hk. auto.
Qed.

(** An anchored expression is tested against the whole input. *)
Lemma test_denote r s :
  test (Cat Bol (Cat r Eol)) s = true <->
  denote r 0 (list_ascii_of_string s) [].
Proof.
  rewrite test_anchored, run_denote. simpl. split.
  - intros (pre & post & -> & (p1 & p2 & -> & H1 & -> & ->) & _).
    by rewrite !app_nil_r in *.
  - intros Hr. exists (list_ascii_of_string s), [].
    rewrite app_nil_r. split; [done|]. split; [|done].
    exists (list_ascii_of_string s), []. by rewrite app_nil_r.
Qed.

End Denotation.

(** ** Expressions of the two schemas, read as plain conditions *)

Section Expressions.

Lemma test_anchored_denote r s :
  test (Cat Bol r) s = true <->
  exists pre post, list_ascii_of_string s = pre ++ post /\ denote r 0 pre post.
Proof.
  rewrite test_anchored, run_denote. split.
  - intros (pre & post & E & Hr & _). eauto.
  - intros (pre & post & E & Hr). eauto 10.
Qed.

Lemma length_list_ascii s : length (list_ascii_of_string s) = String.length s.
Proof. induction s as [|c s IH]; simpl; [done|]. by rewrite IH. Qed.

Lemma vin_atom c :
  atom_matches (Cls false [Range "A" "H"; Range "J" "N"; Chr "P"; Range "R" "Z";
                           Range "0" "9"]%char) c = is_vin_char c.
Proof. destruct c as [[] [] [] [] [] [] [] []]; reflexivity. Qed.

Lemma digit_atom c : atom_matches (Cls false [Digit]) c = is_digit c.
Proof. unfold is_digit. simpl. by rewrite orb_false_r. Qed.

Lemma email_atom c :
  atom_matches (Cls true [Space; Chr "@"]%char) c = is_email_char c.
Proof.
  unfold is_email_char. simpl. rewrite orb_false_r.
  by destruct (is_space c), (Ascii.eqb "@" c).
Qed.

(** X1. The VIN expression accepts exactly the strings of 17 characters
    that are capital letters other than I, O and Q, or digits. *)
Theorem vin_accepts (s : string) :
  test vin_regex s = true <->
  String.length s = 17 /\
  forallb is_vin_char (list_ascii_of_string s) = true.
Proof.
  unfold vin_regex. simpl seq. rewrite test_denote. cbn [denote within].
  rewrite (forallb_pointwise _ _ _ vin_atom), length_list_ascii.
  intuition lia.
Qed.

(** X2. The IMEI validator accepts exactly the strings of 15 decimal
    digits. *)
Theorem imei_accepts (s : string) :
  imei_validator s = true <->
  String.length s = 15 /\
  forallb is_digit (list_ascii_of_string s) = true.
Proof.
  unfold imei_validator, imei_regex. simpl seq. rewrite test_denote.
  cbn [denote within].
  rewrite (forallb_pointwise _ _ _ digit_atom), length_list_ascii.
  intuition lia.
Qed.

(** X3. The plate expression accepts exactly three capital letters, an
    optional hyphen, three digits and two capital letters, in this order
    and with nothing else: 8 characters, or 9 with the hyphen. *)
Theorem plate_accepts (s : string) :
  test plate_regex s = true <->
  exists a h d b,
    list_ascii_of_string s = a ++ h ++ d ++ b /\
    length a = 3 /\ forallb is_upper a = true /\
    (h = [] \/ h = ["-"%char]) /\
    length d = 3 /\ forallb is_digit d = true /\
    length b = 2 /\ forallb is_upper b = true.
Proof.
  unfold plate_regex. simpl seq. rewrite test_anchored_denote.
  cbn [denote within]. split.
  - intros (pre & post & E & a & r1 & -> & (Ha1 & Ha2 & Ha) &
            h & r2 & -> & (_ & Hh2 & Hh) &
            d & r3 & -> & (Hd1 & Hd2 & Hd) &
            b & e & -> & (Hb1 & Hb2 & Hb) & -> & ->).
    rewrite !app_nil_r in E. exists a, h, d, b.
    rewrite (forallb_pointwise _ _ _ upper_atom) in Ha.
    rewrite (forallb_pointwise _ _ _ upper_atom) in Hb.
    rewrite (forallb_pointwise _ _ _ digit_atom) in Hd.
    assert (h = [] \/ h = ["-"%char]) as Hhyph.
    { destruct h as [|c [|c' h]]; [by left| |simpl in Hh2; lia].
      right. cbn [forallb atom_matches] in Hh. rewrite andb_true_r in Hh.
      by apply Ascii.eqb_eq in Hh as ->. }
    split; [done|]. repeat (split; [first [done | lia]|]). done.
  - intros (a & h & d & b & E & Ha & Hua & Hh & Hd & Hdd & Hb & Hub).
    exists (a ++ h ++ d ++ b), []. rewrite app_nil_r. split; [done|].
    rewrite <- (forallb_pointwise _ _ _ upper_atom) in Hua.
    rewrite <- (forallb_pointwise _ _ _ upper_atom) in Hub.
    rewrite <- (forallb_pointwise _ _ _ digit_atom) in Hdd.
    exists a, (h ++ d ++ b). split; [done|]. split; [repeat split; auto; lia|].
    exists h, (d ++ b). split; [done|]. split.
    { destruct Hh as [-> | ->]; cbn [length forallb atom_matches];
        repeat split; auto. }
    exists d, b. split; [done|]. split; [repeat split; auto; lia|].
    exists b, []. rewrite app_nil_r. repeat split; auto; lia.
Qed.

(** The parts of an address the email validator accepts. *)
Lemma email_parts (s : string) :
  email_validator s = true ->
  exists a b c,
    list_ascii_of_string s = a ++ "@"%char :: b ++ "."%char :: c /\
    a <> [] /\ b <> [] /\ c <> [] /\
    forallb is_email_char (a ++ b ++ c) = true.
Proof.
  unfold email_validator, email_regex. cbv zeta. simpl seq.
  rewrite test_anchored_denote. cbn [denote within].
  intros (pre & post & E & a & r1 & -> & (Ha1 & _ & Ha) &
          at_ & r2 & -> & (c1 & -> & Hc1) &
          b & r3 & -> & (Hb1 & _ & Hb) &
          dot & r4 & -> & (c2 & -> & Hc2) &
          c & e & -> & (Hc & _ & Hcc) & -> & ->).
  cbn [atom_matches] in Hc1, Hc2.
  apply Ascii.eqb_eq in Hc1 as <-. apply Ascii.eqb_eq in Hc2 as <-.
  rewrite !app_nil_r in E. exists a, b, c.
  rewrite (forallb_pointwise _ _ _ email_atom) in Ha.
  rewrite (forallb_pointwise _ _ _ email_atom) in Hb.
  rewrite (forallb_pointwise _ _ _ email_atom) in Hcc.
  rewrite !forallb_app, Ha, Hb, Hcc. simpl in E.
  repeat split; auto; intros ->; simpl in *; lia.
Qed.

(** X4. The email validator accepts exactly the strings made of a local
    part, an at sign, a domain part, a dot and a last part, where the
    three parts are not empty and hold neither white space nor an at
    sign. *)
Theorem email_accepts (s : string) :
  email_validator s = true <->
  exists a b c,
    list_ascii_of_string s = a ++ "@"%char :: b ++ "."%char :: c /\
    a <> [] /\ b <> [] /\ c <> [] /\
    forallb is_email_char (a ++ b ++ c) = true.
Proof.
  split; [apply email_parts|].
  unfold email_validator, email_regex. cbv zeta. simpl seq.
  rewrite test_anchored_denote. cbn [denote within].
  intros (a & b & c & E & Ha & Hb & Hc & Hall).
  rewrite !forallb_app, !andb_true_iff in Hall. destruct Hall as (Hua & Hub & Huc).
  rewrite <- (forallb_pointwise _ _ _ email_atom) in Hua.
  rewrite <- (forallb_pointwise _ _ _ email_atom) in Hub.
  rewrite <- (forallb_pointwise _ _ _ email_atom) in Huc.
  assert (forall x : list ascii, x <> [] -> 1 <= length x) as Hlen.
  { intros [|? ?] ?; simpl; [done|lia]. }
  exists (a ++ "@"%char :: b ++ "."%char :: c), []. rewrite app_nil_r.
  split; [done|].
  exists a, ("@"%char :: b ++ "."%char :: c). split; [done|].
  split; [repeat split; auto|].
  exists ["@"%char], (b ++ "."%char :: c). split; [done|].
  split; [exists "@"%char; split; [done|apply Ascii.eqb_refl]|].
  exists b, ("."%char :: c). split; [done|]. split; [repeat split; auto|].
  exists ["."%char], c. split; [done|].
  split; [exists "."%char; split; [done|apply Ascii.eqb_refl]|].
  exists c, []. rewrite app_nil_r. repeat split; auto.
Qed.

End Expressions.

Section Addresses.

Lemma email_chars_no_at (x : list ascii) :
  forallb is_email_char x = true ->
  count_occ ascii_dec x "@"%char = 0 /\ forallb (fun c => negb (is_space c)) x = true.
Proof.
  induction x as [|c x IH]; simpl; [done|].
  rewrite andb_true_iff. intros [Hc Hx]. destruct (IH Hx) as [IH1 IH2].
  unfold is_email_char in Hc. apply andb_true_iff in Hc as [Hs Ha].
  rewrite Hs, IH2. split; [|done].
  destruct (ascii_dec c "@") as [->|_]; [|done].
  by rewrite Ascii.eqb_refl in Ha.
Qed.

(** An accepted address has no white space and five characters or more. *)
Lemma email_spaceless (s : string) :
  email_validator s = true ->
  forallb (fun c => negb (is_space c)) (list_ascii_of_string s) = true /\
  5 <= String.length s.
Proof.
  intros Hs. apply email_parts in Hs as (a & b & c & E & Ha & Hb & Hc & Hall).
  rewrite <- length_list_ascii, E.
  rewrite !forallb_app, !andb_true_iff in Hall. destruct Hall as (Hua & Hub & Huc).
  apply email_chars_no_at in Hua as [_ Has], Hub as [_ Hbs], Huc as [_ Hcs].
  split.
  - rewrite forallb_app, Has. simpl. rewrite forallb_app, Hbs. simpl. done.
  - rewrite length_app. simpl. rewrite length_app. simpl.
    destruct a, b, c; simpl; try done; lia.
Qed.

(** X5. An address the email validator accepts holds exactly one at sign
    and no white space, and is at least five characters long. *)
Theorem email_accepted_shape (s : string) :
  email_validator s = true ->
  count_occ ascii_dec (list_ascii_of_string s) "@"%char = 1 /\
  forallb (fun c => negb (is_space c)) (list_ascii_of_string s) = true /\
  5 <= String.length s.
Proof.
  intros Hs. split; [|by apply email_spaceless].
  apply email_parts in Hs as (a & b & c & E & _ & _ & _ & Hall).
  rewrite E. rewrite !forallb_app, !andb_true_iff in Hall.
  destruct Hall as (Hua & Hub & Huc).
  apply email_chars_no_at in Hua as [Ha0 _], Hub as [Hb0 _], Huc as [Hc0 _].
  rewrite count_occ_app, Ha0. simpl.
  rewrite count_occ_app, Hb0. simpl. by rewrite Hc0.
Qed.

End Addresses.

Section Messages.

Lemma search_one a s : forall i, search (One a) i s = existsb (atom_matches a) s.
Proof.
  induction s as [|c t IH]; intros i; simpl; [done|].
  by rewrite andb_true_r, IH.
Qed.

(** X6. The message for a password falls through to "Invalid password"
    exactly when the password has an uppercase letter, a symbol of the set
    and a length of 8 to 50; so on a password the validator turned down it
    means a character outside the alphabet. *)
Theorem password_message_fallback (s : string) :
  (password_message s = "Invalid password" <-> complexity_policy s = true) /\
  (password_validator s = false -> password_message s = "Invalid password" ->
   only_allowed s = false).
Proof.
  assert (password_message s = "Invalid password" <-> complexity_policy s = true)
    as Hiff.
  { unfold password_message, complexity_policy, test.
    rewrite !search_one.
    rewrite (existsb_pointwise _ _ _ upper_atom).
    rewrite (existsb_pointwise _ _ _ symbol_atom).
    rewrite length_list_ascii.
    destruct (String.length s <? 8) eqn:H8.
    { apply Nat.ltb_lt in H8. split; [discriminate|].
      rewrite !andb_true_iff, !Nat.leb_le. lia. }
    destruct (50 <? String.length s) eqn:H50.
    { apply Nat.ltb_lt in H50. split; [discriminate|].
      rewrite !andb_true_iff, !Nat.leb_le. lia. }
    apply Nat.ltb_ge in H8, H50.
    apply Nat.leb_le in H8 as H8', H50 as H50'. rewrite H8', H50'.
    destruct (existsb is_upper _); cbn [negb andb]; [|split; discriminate].
    destruct (existsb is_symbol _); cbn [negb andb]; [|split; discriminate].
    done. }
  split; [exact Hiff|].
  intros Hv Hm. apply Hiff in Hm.
  rewrite password_validator_spec, Hm in Hv. done.
Qed.

End Messages.

(** ** The trim setter *)

Section Trimming.

Lemma rev_is_reverse {A} (l : list A) : rev l = reverse l.
Proof. apply rev_alt. Qed.

Lemma drop_spaces_spec l :
  exists a, l = a ++ drop_spaces l /\ forallb is_space a = true /\
            forall c, head (drop_spaces l) = Some c -> is_space c = false.
Proof.
  induction l as [|c l IH]; simpl.
  - exists []. repeat split; [done..|]. by intros c [=].
  - destruct IH as (a & E & Ha & Hh). destruct (is_space c) eqn:Hc.
    + exists (c :: a). simpl. rewrite Hc, Ha. split; [by f_equal|done].
    + exists []. simpl. split; [done|]. split; [done|]. by intros ? [= <-].
Qed.

Lemma forallb_rev {A} (f : A -> bool) l : forallb f (rev l) = forallb f l.
Proof.
  induction l as [|x l IH]; simpl; [done|].
  rewrite forallb_app, IH. simpl. rewrite andb_true_r. apply andb_comm.
Qed.

(** What is stripped is white space at the two ends, and all of it. *)
Lemma strip_spec l :
  let m := rev (drop_spaces (rev (drop_spaces l))) in
  exists a b, l = a ++ m ++ b /\
    forallb is_space a = true /\ forallb is_space b = true /\ tight m.
Proof.
  cbv zeta.
  destruct (drop_spaces_spec l) as (a & E1 & Ha & Hh1).
  destruct (drop_spaces_spec (rev (drop_spaces l))) as (b & E2 & Hb & Hh2).
  set (r := drop_spaces (rev (drop_spaces l))) in *.
  assert (drop_spaces l = rev r ++ rev b) as Em.
  { rewrite <- rev_app_distr, <- E2. by rewrite rev_involutive. }
  exists a, (rev b). rewrite <- Em. split; [done|].
  split; [done|]. split; [by rewrite forallb_rev|].
  split.
  - intros c Hc. apply Hh1. rewrite Em.
    destruct (rev r); [done|]. done.
  - intros c Hc. apply Hh2. by rewrite rev_is_reverse, last_reverse in Hc.
Qed.

Lemma tight_drop_spaces l :
  (forall c, head l = Some c -> is_space c = false) -> drop_spaces l = l.
Proof.
  destruct l as [|c l]; simpl; [done|]. intros Hh. by rewrite (Hh c eq_refl).
Qed.

Lemma tight_strip l : tight l -> rev (drop_spaces (rev (drop_spaces l))) = l.
Proof.
  intros [Hh Hl]. rewrite (tight_drop_spaces l Hh).
  rewrite tight_drop_spaces; [apply rev_involutive|].
  intros c. rewrite rev_is_reverse, head_reverse. apply Hl.
Qed.

Lemma trim_tight (s : string) : tight (list_ascii_of_string (trim s)).
Proof.
  unfold trim. rewrite list_ascii_of_string_of_list_ascii.
  by destruct (strip_spec (list_ascii_of_string s)) as (_ & _ & _ & _ & _ & Ht).
Qed.

(** X7. The trim setter removes the white space at the two ends of a
    string and nothing else: the string is white space, the trimmed
    string, white space; the trimmed string neither begins nor ends with
    white space; trimming again changes nothing. *)
Theorem trim_strips (s : string) :
  (exists a b,
     list_ascii_of_string s = a ++ list_ascii_of_string (trim s) ++ b /\
     forallb is_space a = true /\ forallb is_space b = true) /\
  tight (list_ascii_of_string (trim s)) /\
  trim (trim s) = trim s.
Proof.
  unfold trim. rewrite !list_ascii_of_string_of_list_ascii.
  destruct (strip_spec (list_ascii_of_string s)) as (a & b & E & Ha & Hb & Ht).
  split; [by exists a, b|]. split; [done|].
  by rewrite (tight_strip _ Ht).
Qed.

(** A string with no white space is its own trimmed form. *)
Lemma trim_spaceless s :
  forallb (fun c => negb (is_space c)) (list_ascii_of_string s) = true ->
  trim s = s.
Proof.
  intros Hs. unfold trim. rewrite tight_strip.
  - apply string_of_list_ascii_of_string.
  - rewrite forallb_forall in Hs. split; intros c Hc.
    + apply negb_true_iff, Hs, list_elem_of_In. by eapply head_Some_elem_of.
    + apply negb_true_iff, Hs, list_elem_of_In. by eapply last_Some_elem_of.
Qed.

Lemma allowed_not_space c : is_allowed c = true -> is_space c = false.
Proof. destruct c as [[] [] [] [] [] [] [] []]; vm_compute; congruence. Qed.

(** X8. A password the validator accepts, and an address the email
    validator accepts, pass through the trim setter unchanged. *)
Theorem accepted_is_trimmed (s : string) :
  (password_validator s = true -> trim s = s) /\
  (email_validator s = true -> trim s = s).
Proof.
  split; intros Hs; apply trim_spaceless.
  - rewrite password_validator_spec in Hs.
    apply andb_true_iff in Hs as [_ Hs]. unfold only_allowed in Hs.
    rewrite forallb_forall in Hs. apply forallb_forall. intros c Hc.
    by rewrite (allowed_not_space c (Hs c Hc)).
  - by apply email_spaceless in Hs as [Hs _].
Qed.

End Trimming.

(** ** What the schema asks of a user *)

Section Validation.

Context `{Constants} `{Crypto}.

Lemma first_failure_None cs :
  first_failure cs = None <-> Forall (fun c => c.1 = false) cs.
Proof.
  induction cs as [|[failed msg] cs IH]; simpl.
  - split; [by constructor|done].
  - rewrite Forall_cons. simpl. destruct failed.
    + split; [done|]. by intros [? _].
    + rewrite IH. tauto.
Qed.

Lemma validation_errors_nil f :
  validation_errors f = [] <->
  Forall (fun pc => Forall (fun c => c.1 = false) pc.2) (path_checks f).
Proof.
  unfold validation_errors.
  induction (path_checks f) as [|[p checks] l IH]; simpl.
  - split; [by constructor|done].
  - rewrite Forall_cons. simpl. rewrite <- first_failure_None, <- IH.
    destruct (first_failure checks); simpl.
    + split; [done|]. by intros [? _].
    + tauto.
Qed.

Lemma existsb_eqb_iff (s : string) (l : list string) :
  existsb (String.eqb s) l = true <-> s ∈ l.
Proof.
  induction l as [|x l IH]; simpl.
  - split; [done|]. by intros ?%not_elem_of_nil.
  - rewrite orb_true_iff, IH, String.eqb_eq, elem_of_cons. done.
Qed.

(** What a document that passes validation holds. *)
Lemma validation_needs (f : gmap string value) :
  textual f ->
  validation_errors f = [] ->
  (exists n, f !! "name" = Some (Str n) /\
             4 <= String.length n /\ String.length n <= 50) /\
  (exists e, f !! "email" = Some (Str e) /\ email_validator e = true) /\
  (forall r, f !! "role" = Some (Str r) -> r ∈ [USER; DEALER; ADMIN]) /\
  (forall s, f !! "dealershipApplicationStatus" = Some (Str s) ->
             s ∈ [APPROVED; PENDING; REJECTED]) /\
  (exists p, f !! "password" = Some (Str p) /\ password_validator p = true /\
             f !! "passwordConfirm" = Some (Str p)).
Proof.
  intros Ht.
  assert (forall p, p ∈ ["name"; "email"; "role"; "password"; "passwordConfirm"] ->
            f !! p = None \/ exists s, f !! p = Some (Str s)) as Hstr.
  { intros p Hp. destruct (f !! p) as [v|] eqn:E; [|by left].
    destruct (Ht p v Hp E) as [s ->]. eauto. }
  rewrite validation_errors_nil. unfold path_checks.
  rewrite !Forall_cons, !Forall_nil. cbn [fst snd].
  rewrite !Forall_cons, !Forall_nil. cbn [fst snd].
  intros ((Hn1 & Hn2 & Hn3 & _) & (He1 & He2 & _) & (Hr & _) & (Hs & _) &
          (Hp1 & Hp2 & _) & (Hc1 & Hc2 & _) & _).
  repeat split.
  - destruct (Hstr "name" ltac:(in_list)) as [E | [n E]]; rewrite E in *;
      simpl in *; [done|].
    exists n. apply Nat.ltb_ge in Hn2, Hn3. repeat split; auto.
  - destruct (Hstr "email" ltac:(in_list)) as [E | [e E]]; rewrite E in *;
      simpl in *; [done|].
    exists e. by apply negb_false_iff in He2.
  - intros r E. rewrite E in Hr. cbn [on_string] in Hr.
    by apply negb_false_iff, existsb_eqb_iff in Hr.
  - intros s E. rewrite E in Hs. cbn [on_string] in Hs.
    by apply negb_false_iff, existsb_eqb_iff in Hs.
  - destruct (Hstr "password" ltac:(in_list)) as [E | [p E]]; rewrite E in *;
      simpl in *; [done|].
    exists p. apply negb_false_iff in Hp2.
    destruct (Hstr "passwordConfirm" ltac:(in_list)) as [E' | [c E']];
      rewrite E' in *; simpl in *; [done|].
    apply negb_false_iff, bool_decide_eq_true in Hc2. by rewrite Hc2.
Qed.

(** X9. A document whose name, email, password and passwordConfirm are
    strings where given passes validation exactly when: the name has 4 to
    50 characters; the email validator accepts the email; the role and
    the application status, where given, are among their three values; the
    password validator accepts the password; and passwordConfirm is that
    same password. *)
Theorem validation_passes (f : gmap string value) :
  textual f ->
  (validation_errors f = [] <->
   (exists n, f !! "name" = Some (Str n) /\
              4 <= String.length n /\ String.length n <= 50) /\
   (exists e, f !! "email" = Some (Str e) /\ email_validator e = true) /\
   (forall r, f !! "role" = Some (Str r) -> r ∈ [USER; DEALER; ADMIN]) /\
   (forall s, f !! "dealershipApplicationStatus" = Some (Str s) ->
              s ∈ [APPROVED; PENDING; REJECTED]) /\
   (exists p, f !! "password" = Some (Str p) /\ password_validator p = true /\
              f !! "passwordConfirm" = Some (Str p))).
Proof.
  intros Ht. split; [by apply validation_needs|].
  rewrite validation_errors_nil. unfold path_checks.
  rewrite !Forall_cons, !Forall_nil. cbn [fst snd].
  rewrite !Forall_cons, !Forall_nil. cbn [fst snd].
  intros ((n & En & Hn1 & Hn2) & (e & Ee & He) & Hr & Hs & (p & Ep & Hp & Ec)).
  assert ((String.length e =? 0) = false) as Hemail.
  { apply email_spaceless in He as [_ He]. apply Nat.eqb_neq. lia. }
  assert ((String.length p =? 0) = false) as Hpass.
  { pose proof Hp as Hp'. rewrite password_validator_spec in Hp'.
    unfold complexity_policy in Hp'. rewrite length_list_ascii in Hp'.
    rewrite !andb_true_iff, !Nat.leb_le in Hp'. apply Nat.eqb_neq. lia. }
  rewrite En, Ee, Ep, Ec. cbn [missing on_string].
  rewrite Hemail, Hpass, He, Hp.
  rewrite bool_decide_eq_true_2 by done. cbn [negb].
  assert ((String.length n =? 0) = false) as -> by (apply Nat.eqb_neq; lia).
  assert ((String.length n <? 4) = false) as -> by (apply Nat.ltb_ge; lia).
  assert ((50 <? String.length n) = false) as -> by (apply Nat.ltb_ge; lia).
  repeat split.
  - destruct (f !! "role") as [[r| | |]|] eqn:E; cbn [on_string]; try done.
    apply negb_false_iff, existsb_eqb_iff. by apply Hr.
  - destruct (f !! "dealershipApplicationStatus") as [[s| | |]|] eqn:E;
      cbn [on_string]; try done.
    apply negb_false_iff, existsb_eqb_iff. by apply Hs.
Qed.

End Validation.

(** ** Creating a user *)

Section Creation.

Context `{Constants} `{Crypto}.

Lemma save_validated st st' :
  save true st = (Ok tt, st') -> validation_errors (fields (this st)) = [].
Proof.
  rewrite save_eq. unfold validate.
  destruct (validation_errors (fields (this st))); [done|discriminate].
Qed.

Lemma construct_role draft :
  fields (construct draft) !! "role"
  = match draft !! "role" with
    | Some v => Some (coerce "role" v)
    | None => Some (Str USER)
    end.
Proof.
  unfold construct. pose proof (filled_spec draft schema) as [_ Hf].
  destruct (Hf "role") as [Hr _].
  rewrite bool_decide_eq_true_2 in Hr by (unfold schema; simpl; in_list).
  set (d := filled draft schema) in *. clearbody d. cbv zeta.
  rewrite Hr. destruct (draft !! "role"); simpl; [done|].
  by rewrite lookup_insert_eq.
Qed.

Lemma in_schema p :
  p ∈ ["name"; "email"; "password"; "passwordConfirm";
       "dealershipApplicationStatus"] -> p ∈ schema.*1 /\ p <> "role".
Proof.
  rewrite !elem_of_cons. intros [-> | [-> | [-> | [-> | [-> | ?%not_elem_of_nil]]]]];
    try done; (split; [unfold schema; simpl; in_list | done]).
Qed.

(** What a textual draft gives the constructed document at a path. *)
Lemma construct_text draft p :
  textual draft ->
  p ∈ ["name"; "email"; "password"; "passwordConfirm"] ->
  fields (construct draft) !! p
  = match draft !! p with
    | Some (Str s) =>
        Some (Str (if bool_decide (p = "passwordConfirm") then s else trim s))
    | _ => None
    end.
Proof.
  intros Ht Hp.
  assert (p ∈ ["name"; "email"; "role"; "password"; "passwordConfirm"]) as Hp'.
  { revert Hp. rewrite !elem_of_cons. tauto. }
  assert (p ∈ ["name"; "email"; "password"; "passwordConfirm";
               "dealershipApplicationStatus"]) as Hp''.
  { revert Hp. rewrite !elem_of_cons. tauto. }
  destruct (in_schema p Hp'') as [Hs Hr].
  destruct (construct_spec draft p Hs Hr) as (_ & -> & _).
  destruct (draft !! p) as [v|] eqn:E; [|done].
  destruct (Ht p v Hp' E) as [s ->]. simpl.
  revert Hp. rewrite !elem_of_cons.
  intros [-> | [-> | [-> | [-> | ?%not_elem_of_nil]]]]; done.
Qed.

Lemma construct_textual draft : textual draft -> textual (fields (construct draft)).
Proof.
  intros Ht p v Hp. rewrite !elem_of_cons in Hp.
  destruct Hp as [-> | [-> | [-> | [-> | [-> | ?%not_elem_of_nil]]]]]; try done.
  1,2,4,5: rewrite (construct_text draft _ Ht) by in_list;
    destruct (draft !! _) as [[s| | |]|]; intros [= <-]; eauto.
  rewrite construct_role. destruct (draft !! "role") as [w|] eqn:E.
  - destruct (Ht "role" w ltac:(in_list) E) as [s ->]. intros [= <-]. eauto.
  - intros [= <-]. eauto.
Qed.

Lemma plain_not_hook_path p :
  p ∈ ["name"; "email"; "role"] -> p ∉ timestamp_paths ++ hook_paths.
Proof.
  rewrite !elem_of_cons.
  intros [-> | [-> | [-> | ?%not_elem_of_nil]]]; try done; off_paths.
Qed.

(** X10. A user created from a draft that gives its paths as strings is
    stored with the draft's name and email trimmed: a name of 4 to 50
    characters with no white space at its ends, an address the email
    validator accepts, and a role among the three, USER when the draft
    gave none. *)
Theorem create_keeps_schema (draft : gmap string value) (st st' : state) :
  textual draft ->
  create draft st = (Ok tt, st') ->
  (exists n, draft !! "name" = Some (Str n) /\
     kept "name" st' = Some (Str (trim n)) /\
     4 <= String.length (trim n) /\ String.length (trim n) <= 50 /\
     tight (list_ascii_of_string (trim n))) /\
  (exists e, draft !! "email" = Some (Str e) /\
     kept "email" st' = Some (Str (trim e)) /\
     email_validator (trim e) = true) /\
  (exists r, kept "role" st' = Some (Str r) /\ r ∈ [USER; DEALER; ADMIN] /\
     (draft !! "role" = None -> r = USER)) /\
  isNew (this st') = false.
Proof.
  intros Ht. rewrite create_eq. intros Hs.
  pose proof (save_validated _ _ Hs) as Hv.
  change (fields (this (with_this (construct draft) st)))
    with (fields (construct draft)) in Hv.
  apply (validation_needs _ (construct_textual draft Ht)) in Hv
    as ((n & En & Hn1 & Hn2) & (e & Ee & He) & Hr & _ & _).
  apply save_frame in Hs as (_ & _ & _ & Hnew & Hk).
  assert (isNew (construct draft) = true) as Hn.
  { unfold construct. pose proof (filled_spec draft schema) as [Hn _].
    by destruct (fields (filled draft schema) !! "role"). }
  assert (forall p, p ∈ ["name"; "email"; "role"] ->
            kept p st' = fields (construct draft) !! p) as Hkept.
  { intros p Hp. rewrite (Hk p (plain_not_hook_path p Hp)).
    change (isNew (this (with_this (construct draft) st)))
      with (isNew (construct draft)).
    by rewrite Hn. }
  rewrite (construct_text draft "name" Ht) in En by in_list.
  rewrite (construct_text draft "email" Ht) in Ee by in_list.
  split; [|split; [|split; [|done]]].
  - destruct (draft !! "name") as [[n0| | |]|] eqn:E0; try done.
    rewrite bool_decide_eq_false_2 in En by done. injection En as <-.
    exists n0. split; [done|]. rewrite (Hkept "name") by in_list.
    rewrite (construct_text draft "name" Ht) by in_list.
    rewrite E0, bool_decide_eq_false_2 by done.
    repeat split; auto; apply trim_tight.
  - destruct (draft !! "email") as [[e0| | |]|] eqn:E0; try done.
    rewrite bool_decide_eq_false_2 in Ee by done. injection Ee as <-.
    exists e0. split; [done|]. rewrite (Hkept "email") by in_list.
    rewrite (construct_text draft "email" Ht) by in_list.
    rewrite E0, bool_decide_eq_false_2 by done. done.
  - rewrite (Hkept "role") by in_list. rewrite construct_role in Hr |- *.
    destruct (draft !! "role") as [v|] eqn:E.
    + destruct (Ht "role" v ltac:(in_list) E) as [r ->].
      exists r. split; [done|]. split; [by apply Hr|done].
    + exists USER. split; [done|]. split; [by apply Hr|done].
Qed.

(** X11. A user is created only from a draft whose password, once
    trimmed, is accepted by the validator and whose passwordConfirm is
    that trimmed password, character for character: passwordConfirm is not
    trimmed. *)
Theorem create_checks_passwords (draft : gmap string value) (st st' : state) :
  textual draft ->
  create draft st = (Ok tt, st') ->
  exists p,
    draft !! "password" = Some (Str p) /\
    password_validator (trim p) = true /\
    draft !! "passwordConfirm" = Some (Str (trim p)).
Proof.
  intros Ht. rewrite create_eq. intros Hs.
  pose proof (save_validated _ _ Hs) as Hv.
  change (fields (this (with_this (construct draft) st)))
    with (fields (construct draft)) in Hv.
  apply (validation_needs _ (construct_textual draft Ht)) in Hv
    as (_ & _ & _ & _ & (p & Ep & Hp & Ec)).
  rewrite (construct_text draft "password" Ht) in Ep by in_list.
  rewrite (construct_text draft "passwordConfirm" Ht) in Ec by in_list.
  destruct (draft !! "password") as [[p0| | |]|]; try done.
  destruct (draft !! "passwordConfirm") as [[c0| | |]|]; try done.
  rewrite bool_decide_eq_false_2 in Ep by done.
  rewrite bool_decide_eq_true_2 in Ec by done.
  injection Ep as <-. injection Ec as ->. eauto.
Qed.

End Creation.

(** ** Saving again, and what a decision leaves alone *)

Section Persistence.

Context `{Constants} `{Crypto}.

Lemma write_back_empty (doc rec : gmap string value) : write_back ∅ doc rec = rec.
Proof.
  apply map_eq. intros p. rewrite lookup_write_back.
  destruct (decide (p ∈ (∅ : gset string))) as [Hin|]; [|done].
  by apply not_elem_of_empty in Hin.
Qed.

(** The state a write that goes through leaves. *)
Lemma persist_ok st st' :
  persist st = (Ok tt, st') ->
  exists rec, st' = with_this (settled (this st)) (with_stored rec st).
Proof.
  rewrite persist_eq. destruct (isNew (this st)).
  - intros [= <-]. eauto.
  - destruct (stored st); [|discriminate]. intros [= <-]. eauto.
Qed.

Lemma save_ok_state v st st' :
  save v st = (Ok tt, st') ->
  clean st' /\ is_Some (stored st') /\
  drawn st' = (if isModified "password" (this st) then drawn st + 16 else drawn st).
Proof.
  intros Hs. pose proof (save_hooked _ _ _ Hs) as Hd.
  apply save_ok_hooks in Hs as (s0 & s2 & _ & Hp & _).
  apply persist_ok in Hp as [rec ->].
  split; [by split|]. split; [by eexists|].
  destruct (isModified "password" (this st)).
  - by destruct Hd as (digest & _ & _ & _ & _ & _ & _ & _ & Hd).
  - by destruct Hd.
Qed.

Lemma clean_unmodified p st : clean st -> isModified p (this st) = false.
Proof.
  intros [_ Hm]. unfold isModified. rewrite Hm.
  apply bool_decide_eq_false_2, not_elem_of_empty.
Qed.

(** The timestamps hook leaves a document alone that is not new and has
    no path marked. *)
Lemma timestamped_clean st : clean st -> timestamped st = st.
Proof.
  intros [Hn Hm]. unfold timestamped, anyModified. rewrite Hn, Hm.
  by rewrite bool_decide_eq_true_2.
Qed.

(** A clean document with its record there saves to itself. *)
Lemma save_clean st :
  clean st -> is_Some (stored st) -> save false st = (Ok tt, st).
Proof.
  intros Hc [rec Hrec]. pose proof (clean_unmodified "password" st Hc) as Hm.
  rewrite save_eq, (timestamped_clean st Hc).
  destruct Hc as [Hn Hmod].
  rewrite hash_password_hook_eq, Hm, password_changed_hook_eq, Hm.
  rewrite andb_false_r, persist_eq, Hn, Hrec, Hmod, write_back_empty.
  destruct st as [[f n m] s c e d]. simpl in *. by subst.
Qed.

(** X12. Saving again right after a save that went through changes
    nothing: the document and the stored record stay as they are, no
    bytes are drawn, so a stored digest is not hashed a second time. *)
Theorem save_twice (v : bool) (st st' : state) :
  save v st = (Ok tt, st') -> save false st' = (Ok tt, st').
Proof.
  intros Hs. apply save_ok_state in Hs as (Hc & Hr & _). by apply save_clean.
Qed.

End Persistence.

(** ** The timestamps of a new user *)

Section Timestamps.

Context `{Constants} `{Crypto}.

(** X22. A user created from a draft that gives no createdAt is stored
    with the time of the call as createdAt and as updatedAt, whatever the
    draft gives as updatedAt, and the document holds them as well. *)
Theorem created_user_is_timestamped (draft : gmap string value)
    (st st' : state) :
  create draft st = (Ok tt, st') ->
  draft !! "createdAt" = None ->
  kept "createdAt" st' = Some (Date (clock st)) /\
  kept "updatedAt" st' = Some (Date (clock st)) /\
  held "createdAt" st' = Some (Date (clock st)) /\
  held "updatedAt" st' = Some (Date (clock st)).
Proof.
  rewrite create_eq. intros Hs Hc.
  destruct (construct_spec draft "createdAt") as (Hn & Hf & _).
  { unfold schema. simpl. in_list. }
  { done. }
  rewrite Hc in Hf.
  generalize dependent (construct draft). intros d Hs Hn Hf.
  apply save_stamps in Hs.
  change (isNew (this (with_this d st))) with (isNew d) in Hs.
  change (held "createdAt" (with_this d st)) with (fields d !! "createdAt") in Hs.
  change (clock (with_this d st)) with (clock st) in Hs.
  rewrite Hn, Hf in Hs. destruct Hs as (Hhc & Hhu & Hkc & Hku).
  simpl in Hhc. rewrite Hhc in Hhu. simpl in Hhu.
  rewrite Hkc, Hku, Hhu, Hhc. done.
Qed.

End Timestamps.

Section Decisions.

Context `{Constants} `{Crypto}.

#[local] Abbreviation application := "dealershipApplicationStatus" (only parsing).

Lemma perform_ok c st st' :
  perform c st = (Ok tt, st') ->
  exists d, save false (answered d st) = (Ok tt, st').
Proof.
  destruct c as [d|]; simpl.
  - rewrite dealershipApplicationResponse_eq.
    destruct (bool_decide _); [discriminate|]. eauto.
  - rewrite revokeDealershipApplication_eq.
    destruct (negb (bool_decide _)); [discriminate|]. eauto.
Qed.

Lemma clean_ready st : clean st -> is_Some (stored st) -> hashable st /\ on_record st.
Proof.
  intros Hc Hs. split; [|by right].
  intros Hm. by rewrite (clean_unmodified "password" st Hc) in Hm.
Qed.

(** X13. On a document as read from the collection, a response or a
    revocation that goes through writes the application status and, when
    the status is a new one, the time as updatedAt, and nothing else: every
    other path, the role, the password digest, the tokens and createdAt
    among them, is stored and held as before, and no random bytes are
    drawn. *)
Theorem decision_writes_status_and_time (c : call) (st st' : state) :
  clean st ->
  perform c st = (Ok tt, st') ->
  (forall p, p <> application -> p <> "updatedAt" ->
     kept p st' = kept p st /\ held p st' = held p st) /\
  (held application st' <> held application st ->
     kept "updatedAt" st' = Some (Date (clock st)) /\
     held "updatedAt" st' = Some (Date (clock st))) /\
  drawn st' = drawn st /\ clean st'.
Proof.
  intros Hc Hp. apply perform_ok in Hp as [d Hs].
  pose proof (save_ok_state _ _ _ Hs) as (Hc' & _ & _).
  pose proof (assigned_status d st) as (Hheld & Hmod & _ & _ & Hst & Hcl).
  assert (forall p, p <> application ->
            held p (answered d st) = held p st /\
            isModified p (this (answered d st)) = false) as Hother.
  { intros p Hne. unfold held, answered. simpl. rewrite isModified_assign.
    rewrite (clean_unmodified p st Hc), bool_decide_eq_false_2 by done.
    split; [|done].
    destruct d; simpl; [by rewrite lookup_insert_ne | by rewrite lookup_delete_ne]. }
  assert (isNew (this (answered d st)) = false) as Hn by apply Hc.
  assert (forall p, p <> application -> carried p (answered d st) = kept p st)
    as Hcar.
  { intros p Hne. unfold carried. destruct (Hother p Hne) as [_ ->].
    rewrite Hn. unfold kept. by rewrite Hst. }
  pose proof (save_frame _ _ _ _ Hs) as (_ & _ & Hf & _ & Hk).
  pose proof (save_hooked _ _ _ Hs) as Hhooked.
  pose proof (save_stamps _ _ _ Hs) as Hstamps.
  rewrite (proj2 (Hother "password" ltac:(done))) in Hhooked.
  rewrite Hn, (isModified_any _ _ Hmod), Hcl in Hstamps.
  destruct Hhooked as [Hhooks Hdrawn].
  destruct Hstamps as (Hhc & Hkc & Hhu & Hku).
  split; [|split; [|by split]].
  - intros p Hne Hup.
    destruct (decide (p ∈ hook_paths)) as [Hin|Hout].
    { destruct (Hhooks p Hin) as [-> ->].
      rewrite (Hcar p Hne). by destruct (Hother p Hne) as [-> _]. }
    destruct (decide (p = "createdAt")) as [->|Hcr].
    { rewrite Hkc, Hhc, (Hcar _ Hne). by destruct (Hother _ Hne) as [-> _]. }
    assert (p ∉ timestamp_paths ++ hook_paths) as Hoff.
    { apply not_elem_of_app. split; [|done]. unfold timestamp_paths.
      rewrite !not_elem_of_cons. repeat split; try done. apply not_elem_of_nil. }
    rewrite (Hk p Hoff), (Hf p Hoff). fold (carried p (answered d st)).
    rewrite (Hcar p Hne). by destruct (Hother p Hne) as [-> _].
  - done.
Qed.

(** X14. A revocation opens an approved application to any decision
    again: the revocation and the response after it both go through, and
    the status is then the decision of that response, APPROVED included. *)
Theorem revoked_can_be_answered (st : state) (decision : option string) :
  APPROVED <> REJECTED ->
  held application st = Some (Str APPROVED) ->
  hashable st -> on_record st ->
  exists st1 st2,
    revokeDealershipApplication st = (Ok tt, st1) /\
    kept application st1 = Some (Str REJECTED) /\
    dealershipApplicationResponse decision st1 = (Ok tt, st2) /\
    held application st2 = Str <$> decision /\
    kept application st2 = Str <$> decision.
Proof.
  intros Hne Happ Hh Hr.
  rewrite revokeDealershipApplication_eq.
  rewrite bool_decide_eq_true_2 by done. simpl.
  pose proof (assigned_status (Some REJECTED) st) as (_ & _ & Hh1 & Hr1 & _).
  destruct (save_unvalidated_ok _ (Hh1 Hh) (Hr1 Hr)) as [st1 Hs1].
  pose proof (save_ok_state _ _ _ Hs1) as (Hc1 & Hst1 & _).
  pose proof (answered_save _ _ _ _ Hs1) as [Hheld1 Hkept1].
  destruct (clean_ready st1 Hc1 Hst1) as [Hh2 Hr2].
  pose proof (assigned_status decision st1) as (_ & _ & Hh3 & Hr3 & _).
  destruct (save_unvalidated_ok _ (Hh3 Hh2) (Hr3 Hr2)) as [st2 Hs2].
  pose proof (answered_save _ _ _ _ Hs2) as [Hheld2 Hkept2].
  exists st1, st2. rewrite dealershipApplicationResponse_eq.
  rewrite bool_decide_eq_false_2; [done|].
  rewrite Hheld1. simpl. congruence.
Qed.

End Decisions.

(** ** Confirmation tokens, and the two tokens together *)

Section Confirmation.

Context `{Constants} `{Crypto}.

#[local] Abbreviation reset := "passwordResetToken" (only parsing).
#[local] Abbreviation reset_expires := "passwordResetTokenExpires" (only parsing).
#[local] Abbreviation confirmation := "userConfirmationToken" (only parsing).
#[local] Abbreviation confirmation_expires :=
  "userConfirmationTokenExpires" (only parsing).

Lemma generateAndSaveUserConfirmationToken_eq st :
  generateAndSaveUserConfirmationToken st =
  match save false (confirmation_issued st) with
  | (Ok _, st') => (Ok (token_at st), st')
  | (Throw e, st') => (Throw e, st')
  end.
Proof.
  unfold generateAndSaveUserConfirmationToken, mbind, M_bind. simpl.
  unfold confirmation_issued, token_at, minutes. simpl.
  by destruct (save false _) as [[[]|e] st'].
Qed.

Lemma confirmation_not_hook_path :
  (confirmation ∉ timestamp_paths ++ hook_paths) /\
  (confirmation_expires ∉ timestamp_paths ++ hook_paths) /\
  (reset ∉ timestamp_paths ++ hook_paths) /\
  (reset_expires ∉ timestamp_paths ++ hook_paths).
Proof. repeat split; off_paths. Qed.

Lemma confirmation_issued_spec st :
  held confirmation (confirmation_issued st)
    = Some (Str (sha256_hex (token_at st))) /\
  held confirmation_expires (confirmation_issued st)
    = Some (Date (clock st + minutes 10)) /\
  isModified confirmation (this (confirmation_issued st)) = true /\
  isModified confirmation_expires (this (confirmation_issued st)) = true /\
  (hashable st -> hashable (confirmation_issued st)) /\
  (on_record st -> on_record (confirmation_issued st)) /\
  stored (confirmation_issued st) = stored st /\
  isNew (this (confirmation_issued st)) = isNew (this st) /\
  forall p, p <> confirmation -> p <> confirmation_expires ->
    held p (confirmation_issued st) = held p st /\
    isModified p (this (confirmation_issued st)) = isModified p (this st).
Proof.
  unfold confirmation_issued, held. simpl. rewrite !isModified_assign. simpl.
  split; [by rewrite lookup_insert_ne, lookup_insert_eq|].
  split; [by rewrite lookup_insert_eq|].
  do 2 (split; [done|]).
  split.
  { unfold hashable, held. simpl. rewrite !isModified_assign. simpl.
    by rewrite !lookup_insert_ne. }
  do 3 (split; [done|]).
  intros p Hp Hq. rewrite !lookup_insert_ne by done.
  rewrite !isModified_assign, !bool_decide_eq_false_2 by done. done.
Qed.

(** X15. generateAndSaveUserConfirmationToken gives the caller the raw
    token and stores its SHA-256 digest with an expiry ten minutes after
    now, kept as a Date where the reset token's is a String.  The document
    gets both paths; the stored record gets both when the save goes
    through and keeps both as they were when it does not.  What else the
    record holds after the save is accounted for path by path, as for the
    reset token: the paths outside the hooks and the timestamps, the three
    paths of the hooks without and with a pending change of password,
    createdAt, and updatedAt, a Date written by this save when the digest
    is a new one.  For a user read from the collection the record is the
    one before the call with the digest, the expiry and updatedAt
    written. *)
Theorem confirmation_token_is_stored_hashed (st : state) :
  let digest := Some (Str (sha256_hex (token_at st))) in
  let expiry := Some (Date (clock st + minutes 10)) in
  (forall r st',
     generateAndSaveUserConfirmationToken st = (r, st') ->
     held confirmation st' = digest /\ held confirmation_expires st' = expiry /\
     match r with
     | Ok raw =>
         raw = token_at st /\
         kept confirmation st' = digest /\
         kept confirmation_expires st' = expiry /\
         (forall p, p ∉ hook_paths -> p ∉ timestamp_paths ->
            p <> confirmation -> p <> confirmation_expires ->
            kept p st' = carried p st) /\
         (isModified "password" (this st) = false ->
            forall p, p ∈ hook_paths -> kept p st' = carried p st) /\
         (isModified "password" (this st) = true ->
            exists hashed,
              bcrypt_hash (held "password" st) 13
                (salt_at (with_drawn (drawn st + 32) st)) = inr hashed /\
              kept "password" st' = Some (Str (trim hashed)) /\
              kept "passwordConfirm" st' = None /\
              if isNew (this st)
              then kept "passwordChangedAt" st' = held "passwordChangedAt" st
              else exists u, kept "passwordChangedAt" st' = Some (Date u)) /\
         (exists t,
            if isNew (this st) then
              kept "createdAt" st'
                = Some (default (Date t) (held "createdAt" st)) /\
              (forall u, kept "createdAt" st' = Some (Date u) ->
                         kept "updatedAt" st' = Some (Date u))
            else
              kept "createdAt" st' = carried "createdAt" st /\
              (held confirmation st <> digest ->
                 kept "updatedAt" st' = Some (Date t))) /\
         (clean st -> held confirmation st <> digest ->
          held confirmation_expires st <> expiry ->
          forall rec, stored st = Some rec ->
          exists t,
            stored st' =
            Some (<["updatedAt" := Date t]>
                    (<[confirmation_expires := Date (clock st + minutes 10)]>
                       (<[confirmation := Str (sha256_hex (token_at st))]> rec))))
     | Throw _ =>
         kept confirmation st' = kept confirmation st /\
         kept confirmation_expires st' = kept confirmation_expires st
     end) /\
  (hashable st -> on_record st ->
     exists st',
       generateAndSaveUserConfirmationToken st = (Ok (token_at st), st')).
Proof.
  intros digest expiry.
  pose proof (confirmation_issued_spec st)
    as (Ht & He & Hmt & Hme & Hh & Hr & Hs & Hn & Hother).
  destruct confirmation_not_hook_path as (Hpt & Hpe & _).
  split.
  - intros r st'. rewrite generateAndSaveUserConfirmationToken_eq.
    destruct (save false (confirmation_issued st)) as [r0 s'] eqn:Hsave.
    pose proof (issued_account confirmation confirmation_expires st _ _ _
                  Hpt Hpe Hmt Hme Hs Hn eq_refl Hother Hsave)
      as (Hht & Hhe & Hacc).
    rewrite Ht in Hht. rewrite He in Hhe.
    destruct r0 as [[]|e]; intros [= <- <-]; (do 2 (split; [done|])); [|done].
    destruct Hacc as (Hkt & Hke & Hframe & Hhooks & Hhashed & t & Hstamps).
    rewrite Ht in Hkt. rewrite He in Hke.
    do 6 (split; [done|]). split.
    + exists t. destruct (isNew (this st)); [done|].
      destruct Hstamps as [Hc Hu]. by split.
    + intros Hclean Hfresh _ rec Hrec. exists t.
      destruct Hclean as [Hnew Hmod].
      rewrite Hnew in Hstamps. destruct Hstamps as [Hc Hu].
      apply (issued_record confirmation confirmation_expires _ _ st); try done.
  - intros Hhash Hrec. rewrite generateAndSaveUserConfirmationToken_eq.
    destruct (save_unvalidated_ok _ (Hh Hhash) (Hr Hrec)) as [st' ->].
    eauto.
Qed.

(** X16. The two tokens do not get in each other's way.  When a reset
    token is issued for a user read from the collection and, at a later
    reading [now] of the clock, a confirmation token, the stored record
    ends with both pairs, each digest with its own expiry, ten minutes
    after the time of its own call, and the second token is spelled by the
    32 bytes that follow those of the first. *)
Theorem tokens_do_not_interfere (st st1 st2 : state) (t1 t2 : string) (now : Z) :
  clean st ->
  generateAndSavePasswordResetToken st = (Ok t1, st1) ->
  generateAndSaveUserConfirmationToken (later now st1) = (Ok t2, st2) ->
  t1 = token_at st /\ t2 = token_at st1 /\ drawn st1 = drawn st + 32 /\
  kept reset st2 = Some (Str (sha256_hex t1)) /\
  kept reset_expires st2 = Some (Str (pretty (clock st + minutes 10)%Z)) /\
  kept confirmation st2 = Some (Str (sha256_hex t2)) /\
  kept confirmation_expires st2 = Some (Date (now + minutes 10)).
Proof.
  intros Hc. rewrite generateAndSavePasswordResetToken_eq.
  destruct (save false (reset_issued st)) as [[[]|e] s1] eqn:Hs1; [|discriminate].
  intros [= <- <-]. rewrite generateAndSaveUserConfirmationToken_eq.
  change (token_at (later now s1)) with (token_at s1).
  destruct (save false (confirmation_issued (later now s1))) as [[[]|e] s2] eqn:Hs2;
    [|discriminate].
  intros [= <- <-].
  destruct confirmation_not_hook_path as (Hpc & Hpce & Hpr & Hpre).
  pose proof (reset_issued_spec st)
    as (Hrt & Hre & Hrmt & Hrme & _ & _ & _ & _ & Hrother).
  pose proof (confirmation_issued_spec (later now s1))
    as (Hct & Hce & Hcmt & Hcme & _ & _ & Hcs & Hcn & Hcother).
  pose proof (save_ok_state _ _ _ Hs1) as (Hc1 & _ & Hd1).
  assert (isModified "password" (this (reset_issued st)) = false) as Hpw.
  { destruct (Hrother "password") as [_ ->]; [done..|].
    by apply clean_unmodified. }
  rewrite Hpw in Hd1. simpl in Hd1.
  apply save_frame in Hs1 as (_ & _ & _ & _ & Hk1).
  apply save_frame in Hs2 as (_ & _ & _ & _ & Hk2).
  assert (clean (later now s1)) as Hc1' by exact Hc1.
  assert (forall p, p ∉ timestamp_paths ++ hook_paths -> p <> confirmation ->
            p <> confirmation_expires -> kept p s2 = kept p s1) as Hkeep.
  { intros p Hp Hp1 Hp2. rewrite (Hk2 p Hp), Hcn.
    destruct (Hcother p Hp1 Hp2) as [_ ->].
    rewrite (clean_unmodified p _ Hc1'). destruct Hc1' as [-> _].
    simpl. unfold kept. by rewrite Hcs. }
  repeat split; auto.
  - rewrite Hkeep by done. by rewrite Hk1, Hrmt, orb_true_r.
  - rewrite Hkeep by done. by rewrite Hk1, Hrme, orb_true_r.
  - by rewrite Hk2, Hcmt, orb_true_r.
  - by rewrite Hk2, Hcme, orb_true_r.
Qed.

End Confirmation.

(** ** Sessions across a change of password *)

Section Skew.

Context `{Constants} `{Crypto}.

#[local] Abbreviation changed := "passwordChangedAt" (only parsing).

(** What the document holds as passwordChangedAt after a save. *)
Lemma save_held_stamp v st st' :
  save v st = (Ok tt, st') ->
  held changed st' =
  if negb (isNew (this st)) && isModified "password" (this st)
  then Some (Date (clock st - 1000)) else held changed st.
Proof.
  intros Hs. apply save_hooked in Hs.
  destruct (isModified "password" (this st)).
  - destruct Hs as (digest & _ & _ & _ & _ & _ & -> & _).
    by destruct (isNew (this st)).
  - rewrite andb_false_r. destruct Hs as [Hall _].
    apply Hall. unfold hook_paths. in_list.
Qed.

(** X17. After a change of password is saved at clock [t] (milliseconds),
    passwordChangedAfterJwt holds of an issued-at time [iat] (seconds)
    exactly when [iat * 1000 < t - 1000].  So a token issued in the second
    of the change or later is not taken for an older one, and a token
    issued two seconds or more before the change is. *)
Theorem change_and_issued_at (v : bool) (st st' : state) (iat : Z) :
  save v st = (Ok tt, st') ->
  isNew (this st) = false ->
  isModified "password" (this st) = true ->
  (passwordChangedAfterJwt iat (this st') = true <->
   (iat * 1000 < clock st - 1000)%Z) /\
  ((clock st / 1000 <= iat)%Z -> passwordChangedAfterJwt iat (this st') = false) /\
  ((iat <= clock st / 1000 - 2)%Z -> passwordChangedAfterJwt iat (this st') = true).
Proof.
  intros Hs Hn Hm. apply save_held_stamp in Hs.
  rewrite Hn, Hm in Hs. simpl in Hs. unfold held in Hs.
  assert (passwordChangedAfterJwt iat (this st') = true <->
          (iat * 1000 < clock st - 1000)%Z) as Hiff.
  { unfold passwordChangedAfterJwt. rewrite Hs. apply after_seconds. }
  pose proof (Z.mul_div_le (clock st) 1000 ltac:(lia)) as Hlo.
  pose proof (Z.mul_succ_div_gt (clock st) 1000 ltac:(lia)) as Hhi.
  split; [exact Hiff|]. split.
  - intros Hle. apply not_true_iff_false. rewrite Hiff. lia.
  - intros Hle. apply Hiff. lia.
Qed.

(** X18. For a user created from a draft that gives no passwordChangedAt,
    passwordChangedAfterJwt is false of every issued-at time. *)
Theorem new_user_never_changed (draft : gmap string value) (st st' : state)
    (iat : Z) :
  create draft st = (Ok tt, st') ->
  draft !! changed = None ->
  passwordChangedAfterJwt iat (this st') = false.
Proof.
  rewrite create_eq. intros Hs Hd.
  destruct (construct_spec draft changed) as (Hn & Hf & _).
  { unfold schema. simpl. in_list. }
  { done. }
  rewrite Hd in Hf.
  generalize dependent (construct draft). intros d Hs Hn Hf.
  apply save_held_stamp in Hs.
  simpl in Hs. rewrite Hn in Hs. simpl in Hs. unfold held in Hs. simpl in Hs.
  rewrite Hf in Hs. unfold passwordChangedAfterJwt. by rewrite Hs.
Qed.

End Skew.

(** ** Raw tokens *)

Section Hex.

Lemma hex_digit_is_hex n : is_hex_digit (hex_digit n) = true.
Proof.
  unfold hex_digit.
  repeat match goal with
         | |- context [match ?x with _ => _ end] => destruct x
         end; reflexivity.
Qed.

Lemma hex_byte b :
  Byte.of_N (16 * hex_value (hex_digit (Byte.to_N b / 16))
             + hex_value (hex_digit (Byte.to_N b mod 16))) = Some b.
Proof. destruct b; reflexivity. Qed.

Lemma from_hex_to_hex bs : from_hex (list_ascii_of_string (to_hex bs)) = bs.
Proof.
  induction bs as [|b bs IH]; [done|].
  cbn [to_hex list_ascii_of_string from_hex]. by rewrite hex_byte, IH.
Qed.

(** X19. A raw token is made of lowercase hex digits only and spells the
    32 bytes it was drawn from, two digits a byte: reading it back gives
    those bytes, so two tokens are the same only when their bytes are. *)
Theorem token_spells_bytes (st : state) :
  let bytes s := List.map (fun j => entropy s (drawn s + j)) (List.seq 0 32) in
  forallb is_hex_digit (list_ascii_of_string (token_at st)) = true /\
  from_hex (list_ascii_of_string (token_at st)) = bytes st /\
  (forall st2, token_at st = token_at st2 -> bytes st = bytes st2).
Proof.
  intros bytes. unfold token_at. fold (bytes st).
  split; [|split].
  - induction (bytes st) as [|b bs IH]; [done|].
    cbn [to_hex list_ascii_of_string forallb].
    by rewrite !hex_digit_is_hex, IH.
  - apply from_hex_to_hex.
  - intros st2 E. fold (bytes st2) in E.
    by rewrite <- (from_hex_to_hex (bytes st)), E, from_hex_to_hex.
Qed.

End Hex.

(** ** What a save does besides what it is called for *)

Section SideEffects.

Context `{Constants} `{Crypto}.

(** What a save that went through with the password marked leaves. *)
Lemma save_hashes v st st' :
  save v st = (Ok tt, st') ->
  isModified "password" (this st) = true ->
  exists digest,
    bcrypt_hash (held "password" st) 13 (salt_at st) = inr digest /\
    kept "password" st' = Some (Str (trim digest)) /\
    held "passwordConfirm" st' = None.
Proof.
  intros Hs Hm. apply save_hooked in Hs. rewrite Hm in Hs.
  destruct Hs as (digest & Hd & _ & Hk & Hc & _). eauto.
Qed.

Lemma confirm_required (f : gmap string value) :
  f !! "passwordConfirm" = None ->
  "passwordConfirm" ∈ (validation_errors f).*1.
Proof.
  intros Hf. apply list_elem_of_fmap.
  exists ("passwordConfirm", "Confirm password is required"). split; [done|].
  unfold validation_errors. apply list_elem_of_omap.
  eexists ("passwordConfirm", _). split.
  - unfold path_checks. in_list.
  - simpl. rewrite Hf. reflexivity.
Qed.

(** X20. Once a save has hashed the password, the document no longer
    passes validation: a save with validation on is turned down with a
    ValidationError that names passwordConfirm, and changes nothing. *)
Theorem hashed_user_fails_validation (v : bool) (st st' : state) :
  save v st = (Ok tt, st') ->
  isModified "password" (this st) = true ->
  exists errors,
    save true st' = (Throw (ValidationError errors), st') /\
    "passwordConfirm" ∈ errors.*1.
Proof.
  intros Hs Hm. apply save_hashes in Hs as (_ & _ & _ & Hc); [|done].
  pose proof (confirm_required _ Hc) as Hin.
  rewrite save_eq. unfold validate.
  destruct (validation_errors (fields (this st'))) as [|e errors] eqn:E.
  - by apply not_elem_of_nil in Hin.
  - eauto.
Qed.

(** X21. A response or a revocation that goes through on a document with
    a pending change of password stores that password too, as the digest
    bcrypt gives for it, whether or not the validator would accept it:
    these methods save with validation off, and the hooks still run. *)
Theorem decision_stores_pending_password (c : call) (st st' : state) :
  perform c st = (Ok tt, st') ->
  isModified "password" (this st) = true ->
  exists digest,
    bcrypt_hash (held "password" st) 13 (salt_at st) = inr digest /\
    kept "password" st' = Some (Str (trim digest)) /\
    drawn st' = drawn st + 16.
Proof.
  intros Hp Hm. apply perform_ok in Hp as [d Hs].
  assert (isModified "password" (this (answered d st)) = true) as Hm'.
  { unfold answered. simpl. by rewrite isModified_assign, Hm, orb_true_r. }
  pose proof (save_ok_state _ _ _ Hs) as (_ & _ & Hd).
  rewrite Hm' in Hd.
  apply save_hashes in Hs as (digest & Hb & Hk & _); [|done].
  exists digest. split; [|by split].
  assert (held "password" (answered d st) = held "password" st) as <-; [|done].
  unfold held, answered. simpl.
  destruct d; simpl; [by rewrite lookup_insert_ne | by rewrite lookup_delete_ne].
Qed.

End SideEffects.

(** ** The further statements on the sample environment *)

#[local] Existing Instance Sample.constants.
#[local] Existing Instance Sample.crypto.

Lemma sample_draft_textual : textual Sample.draft.
Proof.
  intros p v Hp E. rewrite !elem_of_cons in Hp.
  destruct Hp as [-> | [-> | [-> | [-> | [-> | []%not_elem_of_nil]]]]];
    vm_compute in E; first [discriminate | injection E as <-; eauto].
Qed.

Lemma sample_created :
  create Sample.draft Sample.nobody
  = (Ok tt, (create Sample.draft Sample.nobody).2).
Proof. vm_compute. reflexivity. Qed.

Lemma sample_changed :
  save false (Sample.changing "PENDING")
  = (Ok tt, (save false (Sample.changing "PENDING")).2).
Proof. vm_compute. reflexivity. Qed.

Lemma sample_applicant_clean s : clean (Sample.applicant s).
Proof. by split. Qed.

Lemma email_accepted_shape_witness :
  count_occ ascii_dec (list_ascii_of_string "a@b.com") "@"%char = 1 /\
  forallb (fun c => negb (is_space c)) (list_ascii_of_string "a@b.com") = true /\
  5 <= String.length "a@b.com".
Proof. apply (email_accepted_shape "a@b.com"). reflexivity. Defined.

Lemma validation_passes_witness :
  textual (fields (construct Sample.draft)) /\
  validation_errors (fields (construct Sample.draft)) = [].
Proof.
  assert (textual (fields (construct Sample.draft))) as Ht.
  { intros p v Hp E. rewrite !elem_of_cons in Hp.
    destruct Hp as [-> | [-> | [-> | [-> | [-> | []%not_elem_of_nil]]]]];
      vm_compute in E; first [discriminate | injection E as <-; eauto]. }
  split; [exact Ht|].
  apply (proj2 (validation_passes (fields (construct Sample.draft)) Ht)).
  split; [exists "Alice"; vm_compute; repeat split; lia|].
  split; [by exists "a@b.com"|].
  split; [intros r E; vm_compute in E; injection E as <-; in_list|].
  split; [intros s E; vm_compute in E; discriminate|].
  by exists "Abcdef1!".
Defined.

Lemma create_keeps_schema_witness :
  textual Sample.draft /\
  kept "name" (create Sample.draft Sample.nobody).2 = Some (Str "Alice") /\
  kept "role" (create Sample.draft Sample.nobody).2 = Some (Str USER).
Proof.
  split; [exact sample_draft_textual|].
  destruct (create_keeps_schema Sample.draft Sample.nobody _
              sample_draft_textual sample_created)
    as ((n & Hn & Hk & _) & _ & (r & Hr & _ & Hdef) & _).
  split.
  - vm_compute in Hn. injection Hn as <-. exact Hk.
  - rewrite Hr, Hdef; [done|]. vm_compute. reflexivity.
Defined.

Lemma create_checks_passwords_witness :
  exists p,
    Sample.draft !! "password" = Some (Str p) /\
    password_validator (trim p) = true /\
    Sample.draft !! "passwordConfirm" = Some (Str (trim p)).
Proof.
  exact (create_checks_passwords Sample.draft Sample.nobody _
           sample_draft_textual sample_created).
Defined.

Lemma save_twice_witness :
  save false (save false (Sample.changing "PENDING")).2
  = (Ok tt, (save false (Sample.changing "PENDING")).2).
Proof. exact (save_twice false _ _ sample_changed). Defined.

Lemma decision_writes_status_and_time_witness :
  let r := dealershipApplicationResponse (Some "APPROVED")
             (Sample.applicant "PENDING") in
  r.1 = Ok tt /\
  kept "role" r.2 = Some (Str "USER") /\
  kept "email" r.2 = kept "email" (Sample.applicant "PENDING") /\
  kept "updatedAt" r.2 = Some (Date 1700000000000) /\
  drawn r.2 = 0.
Proof.
  cbv zeta.
  assert (perform (Respond (Some "APPROVED")) (Sample.applicant "PENDING")
          = (Ok tt, (dealershipApplicationResponse (Some "APPROVED")
                       (Sample.applicant "PENDING")).2)) as E
    by (vm_compute; reflexivity).
  destruct (decision_writes_status_and_time _ _ _
              (sample_applicant_clean "PENDING") E) as (Hp & Hu & Hd & _).
  split; [vm_compute; reflexivity|].
  split; [|split; [|split]].
  - rewrite (proj1 (Hp "role" ltac:(done) ltac:(done))). vm_compute. reflexivity.
  - exact (proj1 (Hp "email" ltac:(done) ltac:(done))).
  - apply Hu. intros E'. vm_compute in E'. discriminate.
  - exact Hd.
Defined.

Lemma created_user_is_timestamped_witness :
  kept "createdAt" (create Sample.draft Sample.nobody).2
    = Some (Date 1700000000000) /\
  kept "updatedAt" (create Sample.draft Sample.nobody).2
    = Some (Date 1700000000000).
Proof.
  assert (Sample.draft !! "createdAt" = None) as Hc by (vm_compute; reflexivity).
  destruct (created_user_is_timestamped Sample.draft Sample.nobody _
              sample_created Hc) as (Hkc & Hku & _).
  split; [exact Hkc | exact Hku].
Defined.

Lemma revoked_can_be_answered_witness :
  exists st1 st2,
    revokeDealershipApplication (Sample.changing "APPROVED") = (Ok tt, st1) /\
    kept "dealershipApplicationStatus" st1 = Some (Str REJECTED) /\
    dealershipApplicationResponse (Some "APPROVED") st1 = (Ok tt, st2) /\
    held "dealershipApplicationStatus" st2 = Some (Str "APPROVED") /\
    kept "dealershipApplicationStatus" st2 = Some (Str "APPROVED").
Proof.
  destruct (sample_changing_ready "APPROVED") as [Hh Hr].
  assert (APPROVED <> REJECTED) as Hne by done.
  assert (held "dealershipApplicationStatus" (Sample.changing "APPROVED")
          = Some (Str APPROVED)) as Happ by (vm_compute; reflexivity).
  exact (revoked_can_be_answered (Sample.changing "APPROVED") (Some "APPROVED")
           Hne Happ Hh Hr).
Defined.

Lemma tokens_do_not_interfere_witness :
  let r1 := generateAndSavePasswordResetToken (Sample.applicant "PENDING") in
  let r2 := generateAndSaveUserConfirmationToken (later 1700000005000 r1.2) in
  kept "passwordResetToken" r2.2
    = Some (Str (sha256_hex (token_at (Sample.applicant "PENDING")))) /\
  kept "passwordResetTokenExpires" r2.2 = Some (Str "1700000600000") /\
  kept "userConfirmationToken" r2.2 = Some (Str (sha256_hex (token_at r1.2))) /\
  kept "userConfirmationTokenExpires" r2.2 = Some (Date 1700000605000).
Proof.
  cbv zeta.
  set (st := Sample.applicant "PENDING").
  set (st1 := (generateAndSavePasswordResetToken st).2).
  set (st2 := (generateAndSaveUserConfirmationToken (later 1700000005000 st1)).2).
  assert (generateAndSavePasswordResetToken st = (Ok (token_at st), st1)) as E1
    by (vm_compute; reflexivity).
  assert (generateAndSaveUserConfirmationToken (later 1700000005000 st1)
          = (Ok (token_at st1), st2)) as E2
    by (vm_compute; reflexivity).
  destruct (tokens_do_not_interfere st st1 st2 _ _ 1700000005000
              (sample_applicant_clean "PENDING") E1 E2)
    as (_ & _ & _ & Hr & Hre & Hc & He).
  split; [exact Hr|]. split; [rewrite Hre; vm_compute; reflexivity|].
  split; [exact Hc|]. rewrite He. vm_compute. reflexivity.
Defined.

Lemma change_and_issued_at_witness :
  passwordChangedAfterJwt 1700000000
    (this (save false (Sample.changing "PENDING")).2) = false /\
  passwordChangedAfterJwt 1699999998
    (this (save false (Sample.changing "PENDING")).2) = true.
Proof.
  assert (isNew (this (Sample.changing "PENDING")) = false) as Hn
    by (vm_compute; reflexivity).
  assert (isModified "password" (this (Sample.changing "PENDING")) = true) as Hm
    by (vm_compute; reflexivity).
  split.
  - destruct (change_and_issued_at false _ _ 1700000000 sample_changed Hn Hm)
      as (_ & Hlater & _).
    apply Hlater. vm_compute. discriminate.
  - destruct (change_and_issued_at false _ _ 1699999998 sample_changed Hn Hm)
      as (_ & _ & Hearlier).
    apply Hearlier. vm_compute. discriminate.
Defined.

Lemma new_user_never_changed_witness :
  passwordChangedAfterJwt 0 (this (create Sample.draft Sample.nobody).2) = false.
Proof.
  apply (new_user_never_changed Sample.draft Sample.nobody _ 0 sample_created).
  vm_compute. reflexivity.
Defined.

Lemma hashed_user_fails_validation_witness :
  exists errors,
    save true (create Sample.draft Sample.nobody).2
      = (Throw (ValidationError errors), (create Sample.draft Sample.nobody).2) /\
    "passwordConfirm" ∈ errors.*1.
Proof.
  assert (isModified "password"
            (this (with_this (construct Sample.draft) Sample.nobody)) = true) as Hm
    by (vm_compute; reflexivity).
  assert (save true (with_this (construct Sample.draft) Sample.nobody)
          = (Ok tt, (create Sample.draft Sample.nobody).2)) as E
    by (vm_compute; reflexivity).
  exact (hashed_user_fails_validation true _ _ E Hm).
Defined.

Lemma decision_stores_pending_password_witness :
  password_validator "abc" = false /\
  exists digest,
    bcrypt_hash (Some (Str "abc")) 13 (salt_at More.careless) = inr digest /\
    kept "password"
      (dealershipApplicationResponse (Some "APPROVED") More.careless).2
      = Some (Str (trim digest)).
Proof.
  split; [reflexivity|].
  assert (perform (Respond (Some "APPROVED")) More.careless
          = (Ok tt, (dealershipApplicationResponse (Some "APPROVED")
                       More.careless).2)) as E
    by (vm_compute; reflexivity).
  assert (isModified "password" (this More.careless) = true) as Hm
    by (vm_compute; reflexivity).
  destruct (decision_stores_pending_password _ _ _ E Hm) as (digest & Hb & Hk & _).
  exists digest. split; [exact Hb | exact Hk].
Defined.
